(** * update_comfyui.py: the update-with-conflict-resolution procedure

    A shallow embedding of [src/update_comfyui.py].  The script drives an
    external version-control tool through a shell; everything it knows about
    the tool is the exit status and the captured output of the commands it
    starts.  The embedding keeps that boundary: the operating system and the
    tool are a [Host] (a type class, one instance per machine one wants to
    reason about), and the script is a program in a small state-and-exception
    monad over the host's world. *)

From Stdlib Require Import String Ascii List ZArith NArith Bool Lia.
From Stdlib.Strings Require Import Byte.
From Stdlib Require DecimalString.
Import ListNotations.
Local Open Scope string_scope.
Local Open Scope list_scope.

Set Implicit Arguments.

(** ** Text *)

(** Python's [str] values that the script only builds, concatenates and
    prints (paths, messages, command lines) are [string]s, one [ascii] per
    character. *)

Definition chr (n : nat) : string := String (ascii_of_nat n) EmptyString.

(** ["\n"] and ["\r"], and the escape character of ['\033'] *)
Definition nl : string := chr 10.
Definition cr : string := chr 13.
Definition esc : string := chr 27.

(** ANSI color codes *)
Definition GREEN : string := esc ++ "[0;32m".
Definition YELLOW : string := esc ++ "[0;33m".
Definition RED : string := esc ++ "[0;31m".
Definition DEFAULT : string := esc ++ "[0m".

(** [s * n] for a string [s] and an [int] [n]: empty when [n <= 0] *)
Fixpoint repeat_str (s : string) (n : nat) : string :=
  match n with
  | O => ""
  | S k => s ++ repeat_str s k
  end.

Definition str_mul (s : string) (n : Z) : string := repeat_str s (Z.to_nat n).

(** [f"{s:<w}"]: left-justified in a field of width [w] *)
Definition ljust (w : nat) (s : string) : string :=
  s ++ repeat_str " " (w - String.length s).

(** [f"{s:>w}"], the alignment that [d] formats use *)
Definition rjust (w : nat) (s : string) : string :=
  repeat_str " " (w - String.length s) ++ s.

(** [str(n)] for an [int] *)
Definition str_of_int (n : Z) : string :=
  DecimalString.NilZero.string_of_int (Z.to_int n).

(** [f"{n:3d}"] *)
Definition fmt_3d (n : Z) : string := rjust 3 (str_of_int n).

(** [needle in s] *)
Fixpoint str_in (needle s : string) : bool :=
  String.prefix needle s ||
  match s with
  | EmptyString => false
  | String _ r => str_in needle r
  end.

(** [s.replace(a, b)] for single characters [a] and [b] *)
Fixpoint replace_char (a b : ascii) (s : string) : string :=
  match s with
  | EmptyString => EmptyString
  | String c r => String (if Ascii.eqb c a then b else c) (replace_char a b r)
  end.

Definition startswith (p s : string) : bool := String.prefix p s.

Fixpoint endswith_slash (s : string) : bool :=
  match s with
  | EmptyString => false
  | String c EmptyString => Ascii.eqb c "/"
  | String _ r => endswith_slash r
  end.

(** [os.path.join(a, b)] of [posixpath] *)
Definition os_path_join (a b : string) : string :=
  if startswith "/" b then b
  else if match a with EmptyString => true | _ => endswith_slash a end then a ++ b
  else a ++ "/" ++ b.

(** [os.path.basename(p)] of [posixpath]: what follows the last slash *)
Fixpoint os_path_basename (p : string) : string :=
  match p with
  | EmptyString => EmptyString
  | String c r =>
      if str_in "/" r then os_path_basename r
      else if Ascii.eqb c "/" then r else p
  end.

(** ** Bytes and their decoding *)

(** What a child process writes is [bytes]; [bytes.decode()] is the strict
    UTF-8 decoder, which raises [UnicodeDecodeError] on an ill-formed
    sequence (overlong forms, surrogates and code points above U+10FFFF
    included).  Decoded text is kept as its code points. *)

Definition text := list N.

Definition is_cont (b : N) : bool := ((128 <=? b) && (b <=? 191))%N.

Definition in_range (lo hi b : N) : bool := ((lo <=? b) && (b <=? hi))%N.

Fixpoint utf8_decode (bs : list byte) : option text :=
  match bs with
  | [] => Some []
  | b0 :: r0 =>
      let n0 := Byte.to_N b0 in
      if (n0 <? 128)%N then
        option_map (cons n0) (utf8_decode r0)
      else if in_range 194 223 n0 then
        match r0 with
        | b1 :: r1 =>
            let n1 := Byte.to_N b1 in
            if is_cont n1
            then option_map (cons ((n0 - 192) * 64 + (n1 - 128))%N) (utf8_decode r1)
            else None
        | _ => None
        end
      else if in_range 224 239 n0 then
        match r0 with
        | b1 :: b2 :: r2 =>
            let n1 := Byte.to_N b1 in
            let n2 := Byte.to_N b2 in
            let lo := if (n0 =? 224)%N then 160%N else 128%N in
            let hi := if (n0 =? 237)%N then 159%N else 191%N in
            if in_range lo hi n1 && is_cont n2
            then option_map
                   (cons ((n0 - 224) * 4096 + (n1 - 128) * 64 + (n2 - 128))%N)
                   (utf8_decode r2)
            else None
        | _ => None
        end
      else if in_range 240 244 n0 then
        match r0 with
        | b1 :: b2 :: b3 :: r3 =>
            let n1 := Byte.to_N b1 in
            let n2 := Byte.to_N b2 in
            let n3 := Byte.to_N b3 in
            let lo := if (n0 =? 240)%N then 144%N else 128%N in
            let hi := if (n0 =? 244)%N then 143%N else 191%N in
            if in_range lo hi n1 && is_cont n2 && is_cont n3
            then option_map
                   (cons ((n0 - 240) * 262144 + (n1 - 128) * 4096
                          + (n2 - 128) * 64 + (n3 - 128))%N)
                   (utf8_decode r3)
            else None
        | _ => None
        end
      else None
  end.

(** [str.isspace] on one character: the characters [str.strip()] removes *)
Definition isspace (c : N) : bool :=
  in_range 9 13 c || in_range 28 32 c || (c =? 133)%N || (c =? 160)%N
  || (c =? 5760)%N || in_range 8192 8202 c || (c =? 8232)%N || (c =? 8233)%N
  || (c =? 8239)%N || (c =? 8287)%N || (c =? 12288)%N.

Fixpoint lstrip (s : text) : text :=
  match s with
  | [] => []
  | c :: r => if isspace c then lstrip r else s
  end.

Definition rstrip (s : text) : text := rev (lstrip (rev s)).

(** [s.strip()] *)
Definition strip (s : text) : text := rstrip (lstrip s).

(** truth value of a [str]: non-empty *)
Definition truthy (s : text) : bool :=
  match s with [] => false | _ => true end.

(** ** The host: operating system and child processes *)

(** What [process.communicate()] and [process.returncode] give back *)
Record completed : Type := Completed {
  returncode : Z;
  stdout_bytes : list byte;
  stderr_bytes : list byte
}.

(** The part of the machine the script talks to.  [spawn command cwd] is
    [subprocess.Popen(command, cwd=cwd, shell=True)] run to completion; the
    other operations are those of [os] and [os.path] with their results
    ([listdir] gives [None] where Python raises [OSError]; [chdir] is the
    effect of a successful [os.chdir]). *)
Class Host (World : Type) : Type := {
  path_isdir : string -> World -> bool;
  path_exists : string -> World -> bool;
  listdir : string -> World -> option (list string);
  getcwd : World -> string;
  chdir : string -> World -> World;
  expanduser : string -> World -> string;
  spawn : string -> string -> World -> completed * World
}.

(** What the process is allowed and able to do besides: [enterable d w]
    says that it may enter the directory [d] (search permission on it and on
    the directories above it), [encodable s w] that the encoding of its
    standard output has a code for every character of [s]. *)
Class Limits (World : Type) : Type := {
  enterable : string -> World -> bool;
  encodable : string -> World -> bool
}.

(** A process that may enter every directory and whose standard output
    takes every string.  Where a property names no [Limits], it is stated
    for this process. *)
#[global] Instance unlimited {World : Type} : Limits World :=
  {| enterable := fun _ _ => true;
     encodable := fun _ _ => true |}.

(** ** The monad of the script *)

Inductive exn : Type :=
| OSError (path : string)
| UnicodeDecodeError
| UnicodeEncodeError
| ZeroDivisionError.

Inductive result (A : Type) : Type :=
| Returns (a : A)
| Raises (e : exn).
Arguments Raises {A} e.

(** A child process the script started: its command line, its working
    directory and the world it was started in. *)
Record call (World : Type) : Type := Call {
  command : string;
  cwd : string;
  before : World
}.

(** The state of a run: the host's world, what was written to standard
    output (one entry per write, oldest first) and the child processes
    started so far (oldest first). *)
Record proc (World : Type) : Type := Proc {
  world : World;
  console : list string;
  calls : list (call World)
}.

Definition M (World A : Type) : Type := proc World -> result A * proc World.

Definition ret {W A} (a : A) : M W A := fun s => (Returns a, s).

Definition raise {W A} (e : exn) : M W A := fun s => (Raises e, s).

Definition bind {W A B} (m : M W A) (k : A -> M W B) : M W B :=
  fun s =>
    match m s with
    | (Returns a, s') => k a s'
    | (Raises e, s') => (Raises e, s')
    end.

Declare Scope py_scope.
Delimit Scope py_scope with py.
Notation "x <- m ;; k" := (bind m (fun x => k))
  (at level 61, m at next level, right associativity) : py_scope.
Notation "m ;; k" := (bind m (fun _ => k))
  (at level 61, right associativity) : py_scope.
Local Open Scope py_scope.

(** [if c: body] *)
Definition when {W} (c : bool) (body : M W unit) : M W unit :=
  if c then body else ret tt.

(** a run from a fresh process: nothing written, no child started *)
Definition start {W} (w : W) : proc W :=
  {| world := w; console := []; calls := [] |}.

Definition run {W A} (m : M W A) (w : W) : result A * proc W := m (start w).

(** [args] as [argparse] hands them to [main] *)
Record arguments : Type := Arguments_ {
  verbose : bool;
  force : bool
}.

Section Script.

Context {World : Type} {host : Host World} {limits : Limits World}.

(** [sys.stdout.write(s)]: raises when the stream cannot encode [s], and
    then writes nothing *)
Definition write (s : string) : M World unit :=
  fun p =>
    if encodable s (world p)
    then (Returns tt,
          {| world := world p; console := console p ++ [s]; calls := calls p |})
    else (Raises UnicodeEncodeError, p).

(** [print(s)] *)
Definition print (s : string) : M World unit := write (s ++ nl).

(** a query of the host that leaves it as it is *)
Definition ask {A} (q : World -> A) : M World A := fun p => (Returns (q (world p)), p).

Definition os_path_exists (path : string) : M World bool := ask (path_exists path).
Definition os_path_isdir (path : string) : M World bool := ask (path_isdir path).
Definition os_getcwd : M World string := ask getcwd.
Definition os_path_expanduser (path : string) : M World string := ask (expanduser path).

(** [os.chdir(path)]: raises unless [path] is a directory that the process
    may enter *)
Definition os_chdir (path : string) : M World unit :=
  fun p =>
    if path_isdir path (world p) && enterable path (world p)
    then (Returns tt,
          {| world := chdir path (world p); console := console p; calls := calls p |})
    else (Raises (OSError path), p).

(** [os.listdir(path)] *)
Definition os_listdir (path : string) : M World (list string) :=
  fun p =>
    match listdir path (world p) with
    | Some names => (Returns names, p)
    | None => (Raises (OSError path), p)
    end.

(** [subprocess.Popen(command, cwd=directory, ..., shell=True)] followed by
    [process.communicate()] *)
Definition popen_communicate (command directory : string) : M World completed :=
  fun p =>
    (Returns (fst (spawn command directory (world p))),
     {| world := snd (spawn command directory (world p));
        console := console p;
        calls := calls p ++ [Call command directory (world p)] |}).

(** [bytes.decode()] *)
Definition decode (b : list byte) : M World text :=
  match utf8_decode b with
  | Some t => ret t
  | None => raise UnicodeDecodeError
  end.

(** ** The script *)

(** The quotients are those of Python's [int(a / b)]: true division, then
    truncation towards zero. *)
Definition update_progress (current total : Z) (folder : string) : M World unit :=
  let width := 50%Z in
  if (total =? 0)%Z then raise ZeroDivisionError else
  let percent := Z.quot (current * 100) total in
  let completed := Z.quot (width * current) total in
  write cr ;;
  write ("Updating: " ++ ljust 40 folder) ;;
  write "[" ;;
  write (str_mul "=" completed) ;;
  write (str_mul " " (width - completed)) ;;
  write ("] " ++ fmt_3d percent ++ "%").

Definition run_git_command (command directory : string) : M World (Z * text * text) :=
  process <- popen_communicate command directory ;;
  stdout <- decode (stdout_bytes process) ;;
  stderr <- decode (stderr_bytes process) ;;
  ret (returncode process, stdout, stderr).

(** The two issue strings *)
Definition failed_to_apply (directory : string) : string :=
  "Failed to apply stashed changes in " ++ directory.

Definition unable_to_resolve (directory : string) : string :=
  "Unable to resolve conflicts in " ++ directory ++ ". Manual intervention required.".

(** [# Check for stashes] *)
Definition check_stashes (directory : string) (verbose : bool)
    (issues : list string) : M World (list string) :=
  r <- run_git_command "git stash list" directory ;;
  let '(returncode, stdout, _) := r in
  if truthy (strip stdout) then
    when verbose
      (print (nl ++ YELLOW ++ "Stashed changes found in " ++ directory
              ++ ". Attempting to apply..." ++ DEFAULT)) ;;
    r <- run_git_command "git stash apply" directory ;;
    let '(returncode, _, _) := r in
    if negb (returncode =? 0)%Z
    then ret (issues ++ [failed_to_apply directory])
    else ret issues
  else ret issues.

(** [# Check for uncommitted changes] *)
Definition check_uncommitted (directory : string) (verbose force : bool) : M World unit :=
  r <- run_git_command "git diff --quiet HEAD" directory ;;
  let '(returncode, _, _) := r in
  if negb (returncode =? 0)%Z then
    if force then
      when verbose
        (print (nl ++ YELLOW
                ++ "Uncommitted changes found. Force option is set. Discarding changes..."
                ++ DEFAULT)) ;;
      run_git_command "git reset --hard HEAD" directory ;;
      ret tt
    else
      when verbose
        (print (nl ++ YELLOW ++ "Uncommitted changes found. Stashing changes..."
                ++ DEFAULT)) ;;
      run_git_command "git stash" directory ;;
      ret tt
  else ret tt.

(** [# Try to pull] *)
Definition try_pull (directory : string) (verbose force : bool)
    (issues : list string) : M World (list string) :=
  r <- run_git_command "git pull --rebase" directory ;;
  let '(returncode, _, _) := r in
  if negb (returncode =? 0)%Z then
    when verbose
      (print (nl ++ YELLOW ++ "Conflicts detected in " ++ directory
              ++ ". Attempting to resolve..." ++ DEFAULT)) ;;
    if force then
      when verbose (print "Force rebasing...") ;;
      run_git_command "git fetch --all" directory ;;
      run_git_command "git reset --hard origin/$(git rev-parse --abbrev-ref HEAD)"
        directory ;;
      ret issues
    else
      when verbose
        (print "Attempting to resolve conflicts by favoring incoming changes...") ;;
      r <- run_git_command "git rebase --strategy-option=theirs" directory ;;
      let '(returncode, _, _) := r in
      if negb (returncode =? 0)%Z then
        let issues := issues ++ [unable_to_resolve directory] in
        run_git_command "git rebase --abort" directory ;;
        ret issues
      else ret issues
  else ret issues.

(** [git_pull_with_resolve]: the three commented blocks of the function are
    the three definitions above, in the order of the source. *)
Definition git_pull_with_resolve (directory : string) (verbose force : bool)
    : M World (list string) :=
  os_chdir directory ;;
  let issues := [] in
  (* Check if it's a git repository *)
  has_git <- os_path_exists (os_path_join directory ".git") ;;
  if negb has_git then
    when verbose
      (print (nl ++ YELLOW ++ "Skipping " ++ directory ++ " (not a git repository)"
              ++ DEFAULT)) ;;
    ret issues
  else
    issues <- check_stashes directory verbose issues ;;
    check_uncommitted directory verbose force ;;
    issues <- try_pull directory verbose force issues ;;
    when (verbose && match issues with [] => true | _ => false end)
      (print (GREEN ++ "Update successful for " ++ directory ++ DEFAULT)) ;;
    ret issues.

(** [for x in xs: ...], the body extending the list of issues *)
Fixpoint for_each {A} (xs : list A) (body : A -> list string -> M World (list string))
    (issues : list string) : M World (list string) :=
  match xs with
  | [] => ret issues
  | x :: rest => issues <- body x issues ;; for_each rest body issues
  end.

Definition update_project (project_dir : string) (verbose force : bool)
    : M World (list string) :=
  let project_name := os_path_basename project_dir in
  let issues := [] in
  when verbose
    (print (nl ++ GREEN ++ "Updating project: " ++ project_name ++ DEFAULT)) ;;
  (* Update comfyui directory *)
  let comfyui_dir := os_path_join project_dir "comfyui" in
  is_dir <- os_path_isdir comfyui_dir ;;
  issues <-
    (if is_dir then
       when verbose (print (GREEN ++ "Updating MainApp..." ++ DEFAULT)) ;;
       found <- git_pull_with_resolve comfyui_dir verbose force ;;
       let issues := issues ++ found in
       (* Update custom nodes *)
       let custom_nodes_dir := os_path_join comfyui_dir "custom_nodes" in
       is_dir <- os_path_isdir custom_nodes_dir ;;
       if is_dir then
         when verbose (print (GREEN ++ "Updating custom nodes..." ++ DEFAULT)) ;;
         names <- os_listdir custom_nodes_dir ;;
         for_each names
           (fun node_dir issues =>
              let node_path := os_path_join custom_nodes_dir node_dir in
              is_dir <- os_path_isdir node_path ;;
              if is_dir && negb (node_dir =? "__pycache__")%string then
                when verbose
                  (print (GREEN ++ "Updating " ++ node_dir ++ "..." ++ DEFAULT)) ;;
                found <- git_pull_with_resolve node_path verbose force ;;
                ret (issues ++ found)
              else ret issues)
           issues
       else ret issues
     else ret issues) ;;
  when verbose
    (print (GREEN ++ "Finished updating " ++ project_name ++ DEFAULT) ;;
     print "----------------------------------------") ;;
  ret issues.

(** [[os.path.join(projects_dir, d) for d in names
      if os.path.isdir(os.path.join(projects_dir, d))]] *)
Fixpoint project_dirs (projects_dir : string) (names : list string)
    : M World (list string) :=
  match names with
  | [] => ret []
  | d :: rest =>
      is_dir <- os_path_isdir (os_path_join projects_dir d) ;;
      more <- project_dirs projects_dir rest ;;
      ret (if is_dir then os_path_join projects_dir d :: more else more)
  end.

(** [enumerate(xs, 1)] *)
Definition enumerate1 {A} (xs : list A) : list (Z * A) :=
  combine (map Z.of_nat (seq 1 (List.length xs))) xs.

(** [main], up to the end of the traversal: the value of [all_issues] when
    the final report starts. *)
Definition collect_issues (args : arguments) : M World (list string) :=
  let all_issues := [] in
  here <- os_getcwd ;;
  if str_in "/comfyui-launcher/server/projects/" (replace_char "\" "/" here) then
    here <- os_getcwd ;;
    update_progress 1 1 (os_path_basename here) ;;
    here <- os_getcwd ;;
    found <- update_project here (verbose args) (force args) ;;
    ret (all_issues ++ found)
  else
    projects_dir <- os_path_expanduser "~/comfyui-launcher/server/projects" ;;
    names <- os_listdir projects_dir ;;
    projects <- project_dirs projects_dir names ;;
    let total := Z.of_nat (List.length projects) in
    for_each (enumerate1 projects)
      (fun '(i, project) all_issues =>
         let project_name := os_path_basename project in
         update_progress i total project_name ;;
         found <- update_project project (verbose args) (force args) ;;
         ret (all_issues ++ found))
      all_issues.

(** [for issue in all_issues: print(f"- {issue}")] *)
Fixpoint print_items (all_issues : list string) : M World unit :=
  match all_issues with
  | [] => ret tt
  | issue :: rest => print ("- " ++ issue) ;; print_items rest
  end.

Definition main (args : arguments) : M World unit :=
  all_issues <- collect_issues args ;;
  print (nl ++ GREEN ++ "All projects updated successfully!" ++ DEFAULT) ;;
  match all_issues with
  | [] => ret tt
  | _ :: _ =>
      print (nl ++ YELLOW ++ "Summary of issues:" ++ DEFAULT) ;;
      print_items all_issues
  end.

End Script.

(** ** Hosts to run the script on *)

(** *** A host whose exit statuses are overridden

    [with_exit_status h f] is the host [h], except that the commands of
    [unchecked] exit with the status [f] chooses; what they print and what
    they do to the world is untouched. *)

Definition unchecked : list string :=
  [ "git reset --hard HEAD";
    "git stash";
    "git fetch --all";
    "git reset --hard origin/$(git rev-parse --abbrev-ref HEAD)";
    "git rebase --abort" ].

Definition mem (s : string) (l : list string) : bool :=
  existsb (String.eqb s) l.

Definition with_exit_status {World} (h : Host World)
    (f : string -> string -> World -> Z) : Host World :=
  {| path_isdir := @path_isdir _ h;
     path_exists := @path_exists _ h;
     listdir := @listdir _ h;
     getcwd := @getcwd _ h;
     chdir := @chdir _ h;
     expanduser := @expanduser _ h;
     spawn := fun c d w =>
       let r := fst (@spawn _ h c d w) in
       (if mem c unchecked
        then Completed (f c d w) (stdout_bytes r) (stderr_bytes r)
        else r,
        snd (@spawn _ h c d w)) |}.

(** *** A simulated machine

    A small file tree with checkouts, and a version-control tool reduced to
    what the script can tell apart.  It serves to run the script on concrete
    inputs; nothing is proved about the real tool. *)

Module Sim.

Record repo : Type := Repo {
  stashes : nat;          (* entries on the stash stack *)
  dirty : bool;           (* the working tree differs from HEAD *)
  apply_ok : bool;        (* reapplying the newest stash goes through *)
  head : nat;             (* commit the branch points to *)
  upstream : nat;         (* commit its upstream points to *)
  conflicting : bool;     (* replaying on upstream stops on a conflict *)
  theirs_ok : bool;       (* favoring incoming changes resolves it *)
  rebasing : bool         (* a rebase is in progress *)
}.

Record machine : Type := Machine {
  m_cwd : string;
  m_home : string;
  m_dirs : list string;                (* directories that are no checkouts *)
  m_checkouts : list (string * repo)   (* directories with a [.git] in them *)
}.

Fixpoint lookup (d : string) (l : list (string * repo)) : option repo :=
  match l with
  | [] => None
  | (k, r) :: rest => if (k =? d)%string then Some r else lookup d rest
  end.

Fixpoint update (d : string) (r : repo) (l : list (string * repo))
    : list (string * repo) :=
  match l with
  | [] => []
  | (k, r0) :: rest =>
      if (k =? d)%string then (k, r) :: rest else (k, r0) :: update d r rest
  end.

Definition bytes_of (s : string) : list byte := list_byte_of_string s.

Definition stash_line : list byte := bytes_of ("stash: WIP on main" ++ nl).

Fixpoint stash_list (n : nat) : list byte :=
  match n with
  | O => []
  | S k => stash_line ++ stash_list k
  end.

Definition ok : completed := Completed 0 [] [].
Definition failed (status : Z) (message : string) : completed :=
  Completed status [] (bytes_of (message ++ nl)).

Definition set_dirty (b : bool) (r : repo) : repo :=
  Repo (stashes r) b (apply_ok r) (head r) (upstream r) (conflicting r)
       (theirs_ok r) (rebasing r).

Definition set_rebasing (b : bool) (r : repo) : repo :=
  Repo (stashes r) (dirty r) (apply_ok r) (head r) (upstream r) (conflicting r)
       (theirs_ok r) b.

Definition push_stash (r : repo) : repo :=
  Repo (S (stashes r)) false (apply_ok r) (head r) (upstream r) (conflicting r)
       (theirs_ok r) (rebasing r).

Definition to_upstream (r : repo) : repo :=
  Repo (stashes r) false (apply_ok r) (upstream r) (upstream r) (conflicting r)
       (theirs_ok r) (rebasing r).

Definition git (command : string) (r : repo) : completed * repo :=
  if (command =? "git stash list")%string then
    (Completed 0 (stash_list (stashes r)) [], r)
  else if (command =? "git stash apply")%string then
    match stashes r with
    | O => (failed 1 "No stash entries found.", r)
    | S _ => if apply_ok r then (ok, set_dirty true r)
             else (failed 1 "error: Your local changes would be overwritten by merge.", r)
    end
  else if (command =? "git diff --quiet HEAD")%string then
    (if dirty r then Completed 1 [] [] else ok, r)
  else if (command =? "git reset --hard HEAD")%string then
    (ok, set_dirty false r)
  else if (command =? "git stash")%string then
    (ok, if dirty r then push_stash r else r)
  else if (command =? "git pull --rebase")%string then
    if dirty r then (failed 128 "error: cannot pull with rebase: You have unstaged changes.", r)
    else if (head r =? upstream r)%nat then (ok, r)
    else if conflicting r then (failed 1 "error: could not apply", set_rebasing true r)
    else (ok, to_upstream r)
  else if (command =? "git fetch --all")%string then
    (ok, r)
  else if (command =? "git reset --hard origin/$(git rev-parse --abbrev-ref HEAD)")%string then
    (* while a rebase is stopped, [HEAD] is detached and names no branch:
       the reset cleans the tree and moves neither the branch nor the
       rebase *)
    if rebasing r then (ok, set_dirty false r) else (ok, to_upstream r)
  else if (command =? "git rebase --strategy-option=theirs")%string then
    if theirs_ok r then (ok, set_rebasing false (to_upstream r))
    else (failed 128 "fatal: could not rebase", r)
  else if (command =? "git rebase --abort")%string then
    if rebasing r then (ok, set_rebasing false r)
    else (failed 128 "fatal: No rebase in progress?", r)
  else (failed 1 "git: not a git command", r).

Definition sim_spawn (command directory : string) (m : machine)
    : completed * machine :=
  match lookup directory (m_checkouts m) with
  | None => (failed 128 "fatal: not a git repository", m)
  | Some r =>
      (fst (git command r),
       Machine (m_cwd m) (m_home m) (m_dirs m)
               (update directory (snd (git command r)) (m_checkouts m)))
  end.

(** every path of the file tree; all of them are directories *)
Definition paths (m : machine) : list string :=
  m_dirs m ++ map fst (m_checkouts m)
  ++ map (fun c => os_path_join (fst c) ".git") (m_checkouts m).

Definition sim_isdir (p : string) (m : machine) : bool := mem p (paths m).

(** [q] minus the prefix [p], when it has it *)
Fixpoint drop_prefix (p q : string) : option string :=
  match p, q with
  | EmptyString, _ => Some q
  | String a p', String b q' => if Ascii.eqb a b then drop_prefix p' q' else None
  | String _ _, EmptyString => None
  end.

(** the name of [q] inside the directory [p], when [q] is an entry of [p] *)
Definition entry_of (p q : string) : option string :=
  match drop_prefix (p ++ "/") q with
  | Some name =>
      if str_in "/" name || (name =? "")%string then None else Some name
  | None => None
  end.

Fixpoint entries (p : string) (qs : list string) : list string :=
  match qs with
  | [] => []
  | q :: rest =>
      match entry_of p q with
      | Some name => name :: entries p rest
      | None => entries p rest
      end
  end.

Definition sim_listdir (p : string) (m : machine) : option (list string) :=
  if sim_isdir p m then Some (entries p (paths m)) else None.

Definition sim_expanduser (p : string) (m : machine) : string :=
  match p with
  | String "~" rest =>
      if startswith "/" rest || (rest =? "")%string then m_home m ++ rest else p
  | _ => p
  end.

#[global] Instance sim_host : Host machine :=
  {| path_isdir := sim_isdir;
     path_exists := sim_isdir;
     listdir := sim_listdir;
     getcwd := m_cwd;
     chdir := fun d m => Machine d (m_home m) (m_dirs m) (m_checkouts m);
     expanduser := sim_expanduser;
     spawn := sim_spawn |}.

(** what the claims speak about, read off the simulated checkout at [d] *)
Definition stash_count (d : string) (m : machine) : nat :=
  match lookup d (m_checkouts m) with Some r => stashes r | None => O end.

Definition rebase_in_progress (d : string) (m : machine) : bool :=
  match lookup d (m_checkouts m) with Some r => rebasing r | None => false end.

Definition is_clean (d : string) (m : machine) : bool :=
  match lookup d (m_checkouts m) with Some r => negb (dirty r) | None => true end.


(** the checkout at [d], if there is one *)
Definition tree (d : string) (m : machine) : option repo := lookup d (m_checkouts m).

(** the checkout is there, with nothing stashed, nothing modified, nothing
    to fetch and no rebase under way *)
Definition quiet (d : string) (m : machine) : bool :=
  sim_isdir d m &&
  match lookup d (m_checkouts m) with
  | Some r => (stashes r =? 0)%nat && negb (dirty r) && (head r =? upstream r)%nat
              && negb (rebasing r)
  | None => false
  end.

(** A project with its main checkout and two custom nodes, one of them a
    plain directory. *)
Definition projects_root : string := "/home/u/comfyui-launcher/server/projects".
Definition demo : string := projects_root ++ "/demo".
Definition app : string := demo ++ "/comfyui".
Definition nodes : string := app ++ "/custom_nodes".
Definition node_a : string := nodes ++ "/node_a".
Definition node_b : string := nodes ++ "/node_b".

Definition clean_repo : repo := Repo 0 false true 7 7 false true false.

Definition machine_with (main_repo node_repo : repo) : machine :=
  {| m_cwd := "/home/u";
     m_home := "/home/u";
     m_dirs := [projects_root; demo; nodes; node_b];
     m_checkouts := [(app, main_repo); (node_a, node_repo)] |}.

(** the main checkout is behind its upstream, and replaying on it stops on
    a conflict that favoring incoming changes does not resolve *)
Definition m_conflict : machine :=
  machine_with (Repo 0 false true 7 8 true false false) clean_repo.

(** the main checkout has local modifications and is up to date *)
Definition m_dirty : machine :=
  machine_with (Repo 0 true true 7 7 false true false) clean_repo.

(** the main checkout has a stash entry that does not reapply onto its
    local modifications, and is behind its upstream with a conflict *)
Definition m_stuck : machine :=
  machine_with (Repo 1 true false 7 8 true false false) clean_repo.

(** nothing to do anywhere *)
Definition m_quiet : machine := machine_with clean_repo clean_repo.

End Sim.

(** *** A checkout whose commit subjects are not UTF-8

    Every directory is a checkout with one stash entry, made on a commit
    whose subject was written in Latin-1: [git stash list] prints the line
    [stash@{0}: WIP on main: 1a2b3c4 caf\xe9]. *)

Module Latin1.

Definition stash_line : list byte :=
  list_byte_of_string "stash@{0}: WIP on main: 1a2b3c4 caf" ++ [xe9; x0a].


End Latin1.

(** ** Reading a run *)

Section Observations.

Context {World : Type} {host : Host World} {limits : Limits World}.

(** what a command answers when started in the world [w], and the world it
    leaves *)
Definition exit_status (c d : string) (w : World) : Z :=
  returncode (fst (spawn c d w)).

Definition after (c d : string) (w : World) : World := snd (spawn c d w).

Definition printed (c d : string) (w : World) : text :=
  match utf8_decode (stdout_bytes (fst (spawn c d w))) with
  | Some t => t
  | None => []
  end.

Definition complained (c d : string) (w : World) : text :=
  match utf8_decode (stderr_bytes (fst (spawn c d w))) with
  | Some t => t
  | None => []
  end.

Definition is_some {A} (o : option A) : bool :=
  match o with Some _ => true | None => false end.

(** both streams of the command are well-formed UTF-8 *)
Definition readable (c d : string) (w : World) : bool :=
  is_some (utf8_decode (stdout_bytes (fst (spawn c d w))))
  && is_some (utf8_decode (stderr_bytes (fst (spawn c d w)))).

(** whatever is run in [d], whenever: its output is text *)
Definition text_output (d : string) : Prop :=
  forall c w, readable c d w = true.

(** the commands of a log, in order *)
Definition commands (log : list (call World)) : list string := map (@command _) log.

(** one call of [git_pull_with_resolve] from a fresh process: what it
    returns, the children it started, the world it leaves and what it
    printed *)
Definition sync_result (d : string) (v f : bool) (w : World) : result (list string) :=
  fst (run (git_pull_with_resolve d v f) w).

Definition sync_log (d : string) (v f : bool) (w : World) : list (call World) :=
  calls (snd (run (git_pull_with_resolve d v f) w)).

Definition sync_world (d : string) (v f : bool) (w : World) : World :=
  world (snd (run (git_pull_with_resolve d v f) w)).

Definition sync_console (d : string) (v f : bool) (w : World) : list string :=
  console (snd (run (git_pull_with_resolve d v f) w)).

(** [d] is an existing directory with version-control metadata in it, as
    the script tests it: after [os.chdir(d)] *)
Definition checkout (d : string) (w : World) : Prop :=
  path_isdir d w = true /\ path_exists (os_path_join d ".git") (chdir d w) = true.

(** [os.listdir] gives the names of the entries: no name has a slash in it *)
Definition plain_listings : Prop :=
  forall (path : string) (w : World) (names : list string),
    listdir path w = Some names ->
    forall name, In name names -> str_in "/" name = false.

(** [name] is an entry of some listing of [path] *)
Definition listed (path name : string) : Prop :=
  exists (w : World) (names : list string),
    listdir path w = Some names /\ In name names.

(** the project directories that [main] goes through when it is started in
    [w]: the working directory, when its path has the marker in it, and
    otherwise the entries of the projects directory that are directories *)
Definition main_project (w : World) (project : string) : Prop :=
  if str_in "/comfyui-launcher/server/projects/" (replace_char "\" "/" (getcwd w))
  then project = getcwd w
  else
    let projects_dir := expanduser "~/comfyui-launcher/server/projects" w in
    exists (names : list string) (d : string),
      listdir projects_dir w = Some names /\ In d names /\
      path_isdir (os_path_join projects_dir d) w = true /\
      project = os_path_join projects_dir d.

(** [d] is the [comfyui] directory of [project], or a directory right under
    its [comfyui/custom_nodes] whose name is not [__pycache__] *)
Definition in_project (project d : string) : Prop :=
  d = os_path_join project "comfyui" \/
  exists node_dir : string,
    str_in "/" node_dir = false /\ node_dir <> "__pycache__" /\
    d = (os_path_join (os_path_join project "comfyui") "custom_nodes"
         ++ "/" ++ node_dir)%string.

End Observations.

(** ** Describing what a program may do *)

Section Vocabulary.

Context {World : Type}.

(** every step of [m] moves the state along [I] *)
Definition keeps {A} (I : proc World -> proc World -> Prop) (m : M World A) : Prop :=
  forall s, I s (snd (m s)).

(** an exception of [m] is one of [P] *)
Definition raises_only {A} (P : exn -> Prop) (m : M World A) : Prop :=
  forall s e s', m s = (Raises e, s') -> P e.

(** nothing was written between [s] and [s'] *)
Definition same_console (s s' : proc World) : Prop := console s' = console s.

(** the children started between [s] and [s'] are all of [P] *)
Definition started (P : call World -> Prop) (s s' : proc World) : Prop :=
  exists new, calls s' = calls s ++ new /\ Forall P new.

(** [m1] and [m2], started in states that [R] relates, give the same result
    and states that [R] relates *)
Definition rel {A} (R : proc World -> proc World -> Prop) (m1 m2 : M World A) : Prop :=
  forall s1 s2, R s1 s2 ->
    fst (m1 s1) = fst (m2 s2) /\ R (snd (m1 s1)) (snd (m2 s2)).

(** [R] relates states with the same world, and keeps relating them when
    both move to the same world and start the same children; what they write
    may differ unless [strict] *)
Definition stepwise (strict : bool) (R : proc World -> proc World -> Prop) : Prop :=
  (forall s1 s2, R s1 s2 -> world s1 = world s2) /\
  (forall s1 s2 w ks xs ys,
     (strict = true -> xs = ys) ->
     R s1 s2 ->
     R (Proc w (console s1 ++ xs) (calls s1 ++ ks))
       (Proc w (console s2 ++ ys) (calls s2 ++ ks))).


(** [s1] is [s2] with [c] written and [k] started beforehand *)
Definition shifted (c : list string) (k : list (call World)) (s1 s2 : proc World) : Prop :=
  world s1 = world s2 /\ console s1 = c ++ console s2 /\ calls s1 = k ++ calls s2.

End Vocabulary.

(** the command lines of [git_pull_with_resolve] *)
Definition sync_commands : list string :=
  [ "git stash list";
    "git stash apply";
    "git diff --quiet HEAD";
    "git reset --hard HEAD";
    "git stash";
    "git pull --rebase";
    "git fetch --all";
    "git reset --hard origin/$(git rev-parse --abbrev-ref HEAD)";
    "git rebase --strategy-option=theirs";
    "git rebase --abort" ].

(** more machines to run the script on *)
Module Lab.

(** a home directory and nothing else: no projects directory *)
Definition m_bare : Sim.machine :=
  {| Sim.m_cwd := "/home/u";
     Sim.m_home := "/home/u";
     Sim.m_dirs := ["/home/u"];
     Sim.m_checkouts := [] |}.

(** a projects directory with nothing in it *)
Definition m_empty : Sim.machine :=
  {| Sim.m_cwd := "/home/u";
     Sim.m_home := "/home/u";
     Sim.m_dirs := ["/home/u"; Sim.projects_root];
     Sim.m_checkouts := [] |}.

(** [Sim.m_stuck], the process being started inside the project *)
Definition m_inside : Sim.machine :=
  {| Sim.m_cwd := Sim.demo;
     Sim.m_home := "/home/u";
     Sim.m_dirs := Sim.m_dirs Sim.m_stuck;
     Sim.m_checkouts := Sim.m_checkouts Sim.m_stuck |}.






End Lab.

(** ** Properties *)

Unset Implicit Arguments.

Section Blocks.

Context {World : Type} {host : Host World} {limits : Limits World}.

Lemma run_git_command_text c d (s : proc World) :
  readable c d (world s) = true ->
  run_git_command c d s =
  (Returns (exit_status c d (world s), printed c d (world s), complained c d (world s)),
   {| world := after c d (world s);
      console := console s;
      calls := calls s ++ [Call c d (world s)] |}).
Proof.
  unfold readable, run_git_command, popen_communicate, decode, bind,
    exit_status, printed, complained, after.
  destruct (utf8_decode (stdout_bytes (fst (spawn c d (world s))))); [|discriminate].
  destruct (utf8_decode (stderr_bytes (fst (spawn c d (world s))))); [|discriminate].
  reflexivity.
Qed.

Lemma when_print b msg (s : proc World) :
  when b (@print World unlimited msg) s =
  (Returns tt,
   {| world := world s;
      console := console s ++ (if b then [(msg ++ nl)%string] else []);
      calls := calls s |}).
Proof.
  destruct b, s; unfold when, print, write, ret; simpl;
    rewrite ?app_nil_r; reflexivity.
Qed.

(** a line of narration on a console that takes it *)
Lemma when_says b msg (s : proc World) :
  (b = true -> forall x w, encodable x w = true) ->
  when b (print msg) s =
  (Returns tt,
   {| world := world s;
      console := console s ++ (if b then [(msg ++ nl)%string] else []);
      calls := calls s |}).
Proof.
  intros Hb. destruct b, s; unfold when, print, write, ret; cbn [world console calls].
  - rewrite (Hb eq_refl). reflexivity.
  - rewrite app_nil_r. reflexivity.
Qed.

Lemma narrated_and (v b : bool) :
  (v = true -> forall x (w : World), encodable x w = true) ->
  v && b = true -> forall x (w : World), encodable x w = true.
Proof. intros Hv Hc. apply Hv. apply andb_true_iff in Hc. apply Hc. Qed.

Lemma bind_eq {A B} (m : M World A) (k : A -> M World B) s :
  bind m k s =
  match m s with
  | (Returns a, s') => k a s'
  | (Raises e, s') => (Raises e, s')
  end.
Proof. reflexivity. Qed.

Lemma state_eq {A} (a a' : A) (w w' : World) c c' k k' :
  a = a' -> w = w' -> c = c' -> k = k' ->
  (Returns a, Proc w c k) = (Returns a', Proc w' c' k').
Proof. intros; subst; reflexivity. Qed.

Ltac git_step H :=
  rewrite bind_eq, run_git_command_text by apply H; cbv beta iota.

Ltac say_step Hv := rewrite bind_eq, when_says by exact Hv; cbv beta iota.

Ltac arrive :=
  unfold ret; cbn [world console calls andb orb negb];
  eexists; apply state_eq;
  [ rewrite ?app_nil_r; reflexivity
  | reflexivity
  | rewrite <- ?app_assoc; reflexivity
  | rewrite <- ?app_assoc; reflexivity ].

Ltac stay :=
  exists []; unfold ret; cbn [andb orb negb]; rewrite ?app_nil_r; reflexivity.

(** [# Check for stashes], from any state *)
Lemma check_stashes_path d v issues (s : proc World) :
  (v = true -> forall x w, encodable x w = true) ->
  text_output d ->
  let w1 := world s in
  let w2 := after "git stash list" d w1 in
  let stashed := truthy (strip (printed "git stash list" d w1)) in
  let apply_failed := negb (exit_status "git stash apply" d w2 =? 0)%Z in
  exists out,
    check_stashes d v issues s =
    (Returns (issues ++ if stashed && apply_failed then [failed_to_apply d] else []),
     {| world := if stashed then after "git stash apply" d w2 else w2;
        console := console s ++ out;
        calls := calls s ++ Call "git stash list" d w1
                   :: (if stashed then [Call "git stash apply" d w2] else []) |}).
Proof.
  intros Hv Htext. cbv zeta. unfold check_stashes.
  git_step Htext.
  destruct (truthy (strip (printed "git stash list" d (world s)))).
  - say_step Hv. git_step Htext.
    destruct (negb (exit_status "git stash apply" d _ =? 0)%Z); arrive.
  - stay.
Qed.

(** [# Check for uncommitted changes], from any state *)
Lemma check_uncommitted_path d v (f : bool) (s : proc World) :
  (v = true -> forall x w, encodable x w = true) ->
  text_output d ->
  let w3 := world s in
  let w4 := after "git diff --quiet HEAD" d w3 in
  let diverged := negb (exit_status "git diff --quiet HEAD" d w3 =? 0)%Z in
  let shelve := if f then "git reset --hard HEAD" else "git stash" in
  exists out,
    check_uncommitted d v f s =
    (Returns tt,
     {| world := if diverged then after shelve d w4 else w4;
        console := console s ++ out;
        calls := calls s ++ Call "git diff --quiet HEAD" d w3
                   :: (if diverged then [Call shelve d w4] else []) |}).
Proof.
  intros Hv Htext. cbv zeta. unfold check_uncommitted.
  git_step Htext.
  destruct (negb (exit_status "git diff --quiet HEAD" d (world s) =? 0)%Z).
  - destruct f; say_step Hv; git_step Htext; arrive.
  - stay.
Qed.

(** [# Try to pull], from any state *)
Lemma try_pull_path d v (f : bool) issues (s : proc World) :
  (v = true -> forall x w, encodable x w = true) ->
  text_output d ->
  let w5 := world s in
  let w6 := after "git pull --rebase" d w5 in
  let pull_failed := negb (exit_status "git pull --rebase" d w5 =? 0)%Z in
  let second := if f then "git fetch --all" else "git rebase --strategy-option=theirs" in
  let w7 := after second d w6 in
  let retry_failed :=
    negb (exit_status "git rebase --strategy-option=theirs" d w6 =? 0)%Z in
  let third :=
    if f then "git reset --hard origin/$(git rev-parse --abbrev-ref HEAD)"
    else "git rebase --abort" in
  let w8 := after third d w7 in
  exists out,
    try_pull d v f issues s =
    (Returns (issues ++ if pull_failed && negb f && retry_failed
                        then [unable_to_resolve d] else []),
     {| world := if pull_failed then (if f || retry_failed then w8 else w7) else w6;
        console := console s ++ out;
        calls := calls s ++ Call "git pull --rebase" d w5
                   :: (if pull_failed
                       then Call second d w6
                              :: (if f || retry_failed then [Call third d w7] else [])
                       else []) |}).
Proof.
  intros Hv Htext. cbv zeta. unfold try_pull.
  git_step Htext.
  destruct (negb (exit_status "git pull --rebase" d (world s) =? 0)%Z).
  - say_step Hv. destruct f; say_step Hv; git_step Htext; cbn [world console calls].
    + git_step Htext. arrive.
    + destruct (negb (exit_status "git rebase --strategy-option=theirs" d _ =? 0)%Z).
      * git_step Htext. arrive.
      * arrive.
  - stay.
Qed.

(** The whole of [git_pull_with_resolve] on a checkout that the process may
    enter and whose tool prints text, the console taking the narration: the
    worlds it passes through, the children it starts and the issues it
    returns, in terms of what the children answer. *)
Lemma sync_path d v (f : bool) (w0 : World) :
  path_isdir d w0 = true ->
  path_exists (os_path_join d ".git") (chdir d w0) = true ->
  enterable d w0 = true ->
  (v = true -> forall x w, encodable x w = true) ->
  text_output d ->
  let w1 := chdir d w0 in
  let w2 := after "git stash list" d w1 in
  let stashed := truthy (strip (printed "git stash list" d w1)) in
  let apply_failed := negb (exit_status "git stash apply" d w2 =? 0)%Z in
  let w3 := if stashed then after "git stash apply" d w2 else w2 in
  let w4 := after "git diff --quiet HEAD" d w3 in
  let diverged := negb (exit_status "git diff --quiet HEAD" d w3 =? 0)%Z in
  let shelve := if f then "git reset --hard HEAD" else "git stash" in
  let w5 := if diverged then after shelve d w4 else w4 in
  let w6 := after "git pull --rebase" d w5 in
  let pull_failed := negb (exit_status "git pull --rebase" d w5 =? 0)%Z in
  let second := if f then "git fetch --all" else "git rebase --strategy-option=theirs" in
  let w7 := after second d w6 in
  let retry_failed :=
    negb (exit_status "git rebase --strategy-option=theirs" d w6 =? 0)%Z in
  let third :=
    if f then "git reset --hard origin/$(git rev-parse --abbrev-ref HEAD)"
    else "git rebase --abort" in
  let w8 := after third d w7 in
  exists out,
    run (git_pull_with_resolve d v f) w0 =
    (Returns ((if stashed && apply_failed then [failed_to_apply d] else [])
              ++ (if pull_failed && negb f && retry_failed
                  then [unable_to_resolve d] else [])),
     {| world := if pull_failed then (if f || retry_failed then w8 else w7) else w6;
        console := out;
        calls :=
          (Call "git stash list" d w1
             :: (if stashed then [Call "git stash apply" d w2] else []))
          ++ (Call "git diff --quiet HEAD" d w3
                :: (if diverged then [Call shelve d w4] else []))
          ++ (Call "git pull --rebase" d w5
                :: (if pull_failed
                    then Call second d w6
                           :: (if f || retry_failed then [Call third d w7] else [])
                    else [])) |}).
Proof.
  intros Hdir Hgit Henter Hv Htext. cbv zeta.
  unfold run, git_pull_with_resolve.
  rewrite bind_eq. unfold os_chdir at 1. cbn [start world console calls].
  rewrite Hdir, Henter. cbn [andb]. cbv beta iota.
  rewrite bind_eq. unfold os_path_exists, ask. cbn [world]. rewrite Hgit.
  cbv beta iota. cbn [negb].
  rewrite bind_eq.
  destruct (check_stashes_path d v [] (Proc (chdir d w0) [] []) Hv Htext) as [o1 ->].
  cbv beta iota. cbn [world console calls app].
  rewrite bind_eq.
  match goal with |- context [check_uncommitted d v f ?s] =>
    destruct (check_uncommitted_path d v f s Hv Htext) as [o2 E]; rewrite E; clear E end.
  cbv beta iota. cbn [world console calls].
  rewrite bind_eq.
  match goal with |- context [try_pull d v f ?i ?s] =>
    destruct (try_pull_path d v f i s Hv Htext) as [o3 E]; rewrite E; clear E end.
  cbv beta iota. cbn [world console calls].
  rewrite bind_eq, when_says by (apply narrated_and; exact Hv). cbv beta iota.
  unfold ret. cbn [world console calls].
  eexists. apply state_eq; try reflexivity.
  rewrite <- !app_assoc. reflexivity.
Qed.

Lemma issue_strings_differ d : failed_to_apply d <> unable_to_resolve d.
Proof. unfold failed_to_apply, unable_to_resolve. simpl. discriminate. Qed.

(** the early return of [git_pull_with_resolve] *)
Lemma sync_skips (d : string) (v f : bool) (w0 : World) :
  path_isdir d w0 = true ->
  path_exists (os_path_join d ".git") (chdir d w0) = false ->
  enterable d w0 = true ->
  (v = true -> forall x w, encodable x w = true) ->
  run (git_pull_with_resolve d v f) w0 =
  (Returns [],
   {| world := chdir d w0;
      console := if v
                 then [((nl ++ YELLOW ++ "Skipping " ++ d ++ " (not a git repository)"
                         ++ DEFAULT) ++ nl)%string]
                 else [];
      calls := [] |}).
Proof.
  intros Hdir Hgit Henter Hv. unfold run, git_pull_with_resolve.
  rewrite bind_eq. unfold os_chdir at 1. cbn [start world console calls].
  rewrite Hdir, Henter. cbn [andb]. cbv beta iota.
  rewrite bind_eq. unfold os_path_exists, ask. cbn [world]. rewrite Hgit.
  cbv beta iota. cbn [negb].
  rewrite bind_eq, when_says by exact Hv. cbv beta iota. unfold ret.
  cbn [world console calls app].
  destruct v; rewrite <- ?app_assoc; reflexivity.
Qed.

Lemma nonzero_test (z : Z) : z <> 0%Z -> negb (z =? 0)%Z = true.
Proof. intros H. destruct (Z.eqb_spec z 0); [contradiction | reflexivity]. Qed.

(** [sync_path] with its worlds and tests named *)
Lemma sync_steps (d : string) (v f : bool) (w0 : World) :
  checkout d w0 ->
  enterable d w0 = true ->
  (v = true -> forall x w, encodable x w = true) ->
  text_output d ->
  exists (stashed apply_failed diverged pull_failed retry_failed : bool)
         (w3 w5 : World) (out : list string),
    let w1 := chdir d w0 in
    let w2 := after "git stash list" d w1 in
    let w4 := after "git diff --quiet HEAD" d w3 in
    let shelve := if f then "git reset --hard HEAD" else "git stash" in
    let w6 := after "git pull --rebase" d w5 in
    let second :=
      if f then "git fetch --all" else "git rebase --strategy-option=theirs" in
    let w7 := after second d w6 in
    let third :=
      if f then "git reset --hard origin/$(git rev-parse --abbrev-ref HEAD)"
      else "git rebase --abort" in
    let w8 := after third d w7 in
    stashed = truthy (strip (printed "git stash list" d w1)) /\
    apply_failed = negb (exit_status "git stash apply" d w2 =? 0)%Z /\
    w3 = (if stashed then after "git stash apply" d w2 else w2) /\
    diverged = negb (exit_status "git diff --quiet HEAD" d w3 =? 0)%Z /\
    w5 = (if diverged then after shelve d w4 else w4) /\
    pull_failed = negb (exit_status "git pull --rebase" d w5 =? 0)%Z /\
    retry_failed =
      negb (exit_status "git rebase --strategy-option=theirs" d w6 =? 0)%Z /\
    sync_result d v f w0 =
      Returns ((if stashed && apply_failed then [failed_to_apply d] else [])
               ++ (if pull_failed && negb f && retry_failed
                   then [unable_to_resolve d] else [])) /\
    sync_world d v f w0 =
      (if pull_failed then (if f || retry_failed then w8 else w7) else w6) /\
    sync_console d v f w0 = out /\
    sync_log d v f w0 =
      (Call "git stash list" d w1
         :: (if stashed then [Call "git stash apply" d w2] else []))
      ++ (Call "git diff --quiet HEAD" d w3
            :: (if diverged then [Call shelve d w4] else []))
      ++ (Call "git pull --rebase" d w5
            :: (if pull_failed
                then Call second d w6
                       :: (if f || retry_failed then [Call third d w7] else [])
                else [])).
Proof.
  intros [Hdir Hgit] Henter Hv Htext.
  pose proof (sync_path d v f w0 Hdir Hgit Henter Hv Htext) as P.
  cbv zeta in P. destruct P as [out E].
  unfold sync_result, sync_log, sync_world, sync_console. rewrite E.
  cbn [fst snd world calls console].
  do 5 eexists. do 2 eexists. exists out. cbv zeta.
  repeat (split; [reflexivity | ]). reflexivity.
Qed.

(** building the list of projects changes nothing *)
Lemma project_dirs_run (projects_dir : string) (names : list string) (s : proc World) :
  project_dirs projects_dir names s =
  (Returns
     (map (os_path_join projects_dir)
        (filter (fun d => path_isdir (os_path_join projects_dir d) (world s)) names)),
   s).
Proof.
  induction names as [| d rest IH]; cbn [project_dirs filter map]; [reflexivity |].
  rewrite bind_eq. unfold os_path_isdir at 1, ask at 1. cbv beta iota.
  rewrite bind_eq, IH. cbv beta iota. unfold ret.
  destruct (path_isdir (os_path_join projects_dir d) (world s)); reflexivity.
Qed.

(** the progress line is written to the console: the world and the
    children are as before, whether or not a write raises *)
Lemma update_progress_world (current total : Z) (folder : string) (s : proc World) :
  world (snd (update_progress current total folder s)) = world s /\
  calls (snd (update_progress current total folder s)) = calls s.
Proof.
  unfold update_progress. destruct (total =? 0)%Z; [split; reflexivity |].
  unfold bind, write.
  repeat (match goal with
          | |- context [if encodable ?x ?w then _ else _] => destruct (encodable x w)
          end; cbn [world console calls fst snd]; cbv beta iota);
    split; reflexivity.
Qed.

(** the full bar that [main] draws when it is started inside a project, on
    a console that takes it *)
Lemma progress_of_one_limited (folder : string) (s : proc World) :
  (forall line, encodable line (world s) = true) ->
  update_progress 1 1 folder s =
  (Returns tt,
   Proc (world s)
     (console s ++ [cr; ("Updating: " ++ ljust 40 folder)%string; "[";
                    repeat_str "=" 50; ""; "] 100%"])
     (calls s)).
Proof.
  intros He. unfold update_progress, bind, write.
  cbn [world console calls Z.eqb].
  repeat (rewrite He; cbn [world console calls]).
  rewrite <- !app_assoc. reflexivity.
Qed.

End Blocks.

(** walk one run of [git_pull_with_resolve] on a checkout along [sync_path] *)
Ltac name_steps P :=
  cbv zeta in P;
  destruct P as (stashed & apply_failed & diverged & pull_failed & retry_failed
                 & w3 & w5 & out & Estashed & Eapply & Ew3 & Ediverged & Ew5
                 & Epull & Eretry & Eresult & Eworld & Econsole & Elog).

Ltac along_limited_path d v f w0 Hco Henter Hv Htext :=
  let P := fresh "P" in
  pose proof (sync_steps d v f w0 Hco Henter Hv Htext) as P;
  name_steps P.

(** the same for the process without limits *)
Ltac along_path d v f w0 Hco Htext :=
  let P := fresh "P" in
  pose proof (@sync_steps _ _ unlimited d v f w0 Hco eq_refl
                (fun _ _ _ => eq_refl) Htext) as P;
  name_steps P.

(** find a call in a log that is written out *)
Ltac locate H :=
  cbn [In app] in H;
  repeat (destruct H as [H | H]; [try discriminate H | ]);
  try contradiction.


(** The theorems of this section are about the process without limits: it
    may enter every directory that exists, and its console takes every
    line. *)

Section Claims.

Context {World : Type} {host : Host World}.

(** C6. A target without version-control metadata (no [.git] entry in the
    directory) makes [git_pull_with_resolve] return at once, normally and
    with an empty list of issues: no child process is started, the world is
    the one [os.chdir] left, and the only output is the one-line notice of
    verbose mode. *)
Theorem C6_no_metadata_is_skipped (d : string) (v f : bool) (w0 : World) :
  path_isdir d w0 = true ->
  path_exists (os_path_join d ".git") (chdir d w0) = false ->
  sync_result d v f w0 = Returns [] /\
  sync_log d v f w0 = [] /\
  sync_world d v f w0 = chdir d w0 /\
  sync_console d v f w0 =
    (if v
     then [((nl ++ YELLOW ++ "Skipping " ++ d ++ " (not a git repository)"
             ++ DEFAULT) ++ nl)%string]
     else []).
Proof.
  intros Hdir Hgit.
  unfold sync_result, sync_log, sync_world, sync_console.
  rewrite (@sync_skips World host unlimited d v f w0 Hdir Hgit eq_refl
             (fun _ _ _ => eq_refl)).
  repeat split.
Qed.

(** C2, as the code has it.  When the divergence check of a forced run
    ([force = true]) reports a difference, the next child is
    [git reset --hard HEAD] and the pull is the child after it, started in the
    world the reset left; only the stash commands of the first block come
    before.  The discard records no issue: the run returns normally, and its
    list of issues is empty unless a stash entry was found at the start and
    its reapplication failed, in which case it is the single
    ["Failed to apply stashed changes in <path>"]. *)
Theorem C2_forced_discard_precedes_pull (d : string) (v : bool) (w0 w : World) :
  checkout d w0 ->
  text_output d ->
  In (Call "git diff --quiet HEAD" d w) (sync_log d v true w0) ->
  exit_status "git diff --quiet HEAD" d w <> 0%Z ->
  let w1 := chdir d w0 in
  let w2 := after "git stash list" d w1 in
  let w' := after "git diff --quiet HEAD" d w in
  let w'' := after "git reset --hard HEAD" d w' in
  (exists earlier later,
     sync_log d v true w0 =
     earlier ++ [Call "git diff --quiet HEAD" d w;
                 Call "git reset --hard HEAD" d w';
                 Call "git pull --rebase" d w''] ++ later /\
     (earlier = [Call "git stash list" d w1] \/
      earlier = [Call "git stash list" d w1; Call "git stash apply" d w2])) /\
  (exists issues,
     sync_result d v true w0 = Returns issues /\
     (issues = [] \/ issues = [failed_to_apply d]) /\
     (issues = [failed_to_apply d] <->
      truthy (strip (printed "git stash list" d w1)) = true /\
      exit_status "git stash apply" d w2 <> 0%Z)).
Proof.
  intros Hco Htext Hin Hdiv. cbv zeta.
  along_path d v true w0 Hco Htext.
  rewrite Elog in Hin.
  assert (Hw : w = w3).
  { destruct stashed, diverged, pull_failed; locate Hin;
      injection Hin as <-; reflexivity. }
  subst w.
  rewrite (nonzero_test _ Hdiv) in Ediverged. subst diverged.
  cbn [orb andb negb] in *.
  rewrite andb_false_r, app_nil_r in Eresult.
  split.
  - rewrite Elog. subst w5.
    destruct stashed; cbn [app]; eexists; eexists.
    + split; [| right; reflexivity]. reflexivity.
    + split; [| left; reflexivity]. reflexivity.
  - rewrite Eresult. eexists. split; [reflexivity |].
    rewrite <- Estashed.
    destruct stashed; cbn [andb].
    + destruct (Z.eqb_spec (exit_status "git stash apply" d
                              (after "git stash list" d (chdir d w0))) 0) as [E0 | E0];
        cbn [negb] in Eapply; subst apply_failed.
      * split; [left; reflexivity |]. split; [discriminate |].
        intros [_ H]. contradiction.
      * split; [right; reflexivity |]. split; [auto | reflexivity].
    + split; [left; reflexivity |]. split; [discriminate |].
      intros [H _]. discriminate.
Qed.

(** C3. When the divergence check of a conservative run ([force = false])
    reports a difference, the next child is [git stash] and the pull is the
    child after it, started in the world the stash command left; only the
    stash commands of the first block come before.  When that pull succeeds
    it is the last child, so [git stash] ran once and nothing that removes a
    stash entry ran at all: for every count of stash entries that the other
    commands of the run keep and that this [git stash] raised by one, the
    count at the end is the count at the start plus one. *)
Theorem C3_conservative_run_shelves (d : string) (v : bool) (w0 w : World) :
  checkout d w0 ->
  text_output d ->
  In (Call "git diff --quiet HEAD" d w) (sync_log d v false w0) ->
  exit_status "git diff --quiet HEAD" d w <> 0%Z ->
  let w1 := chdir d w0 in
  let w2 := after "git stash list" d w1 in
  let w' := after "git diff --quiet HEAD" d w in
  let w'' := after "git stash" d w' in
  (exists earlier later,
     sync_log d v false w0 =
     earlier ++ [Call "git diff --quiet HEAD" d w;
                 Call "git stash" d w';
                 Call "git pull --rebase" d w''] ++ later /\
     (earlier = [Call "git stash list" d w1] \/
      earlier = [Call "git stash list" d w1; Call "git stash apply" d w2]) /\
     (exit_status "git pull --rebase" d w'' = 0%Z -> later = [])) /\
  (exit_status "git pull --rebase" d w'' = 0%Z ->
   count_occ string_dec (commands (sync_log d v false w0)) "git stash" = 1 /\
   sync_world d v false w0 = after "git pull --rebase" d w'' /\
   forall count : World -> nat,
     (forall x, count (chdir d x) = count x) ->
     (forall c x,
        In c ["git stash list"; "git stash apply"; "git diff --quiet HEAD";
              "git pull --rebase"] ->
        count (after c d x) = count x) ->
     count w'' = S (count w') ->
     count (sync_world d v false w0) = S (count w0)).
Proof.
  intros Hco Htext Hin Hdiv. cbv zeta.
  along_path d v false w0 Hco Htext.
  rewrite Elog in Hin.
  assert (Hw : w = w3).
  { destruct stashed, diverged, pull_failed, retry_failed; locate Hin;
      injection Hin as <-; reflexivity. }
  subst w.
  rewrite (nonzero_test _ Hdiv) in Ediverged. subst diverged.
  cbn [orb andb negb] in *. subst w5.
  split.
  - rewrite Elog.
    destruct stashed; cbn [app]; eexists; eexists.
    + split; [| split; [right; reflexivity |]]; [reflexivity |].
      intros Hok. rewrite Hok in Epull. subst pull_failed. reflexivity.
    + split; [| split; [left; reflexivity |]]; [reflexivity |].
      intros Hok. rewrite Hok in Epull. subst pull_failed. reflexivity.
  - intros Hok. rewrite Hok in Epull. cbn in Epull. subst pull_failed.
    rewrite Eworld, Elog. split; [| split].
    + destruct stashed; reflexivity.
    + reflexivity.
    + intros count Hcd Hkeep Hpush.
      rewrite (Hkeep "git pull --rebase") by (cbn; auto).
      rewrite Hpush.
      rewrite (Hkeep "git diff --quiet HEAD") by (cbn; auto).
      f_equal. subst w3.
      destruct stashed.
      * rewrite (Hkeep "git stash apply") by (cbn; auto).
        rewrite (Hkeep "git stash list") by (cbn; auto). apply Hcd.
      * rewrite (Hkeep "git stash list") by (cbn; auto). apply Hcd.
Qed.

(** C8.  Take a class of worlds, [quiet], in which the target is a checkout
    where [git stash list] prints nothing, the divergence check and the pull
    exit with 0, and which these three commands and [os.chdir] do not leave;
    and an observable [tree] of the world that the four of them do not
    change.  From a quiet world, two calls in a row both return the empty
    list of issues; the second starts these three children and no other, and
    [tree] is after it what it was before it. *)
Theorem C8_twice_on_a_quiet_checkout
    (d : string) (v f : bool) (quiet : World -> Prop)
    (T : Type) (tree : World -> T) (w0 : World) :
  text_output d ->
  (forall x, quiet x ->
     path_isdir d x = true /\ quiet (chdir d x) /\ tree (chdir d x) = tree x) ->
  (forall x, quiet x -> path_exists (os_path_join d ".git") x = true) ->
  (forall x, quiet x ->
     strip (printed "git stash list" d x) = [] /\
     quiet (after "git stash list" d x) /\
     tree (after "git stash list" d x) = tree x) ->
  (forall x, quiet x ->
     exit_status "git diff --quiet HEAD" d x = 0%Z /\
     quiet (after "git diff --quiet HEAD" d x) /\
     tree (after "git diff --quiet HEAD" d x) = tree x) ->
  (forall x, quiet x ->
     exit_status "git pull --rebase" d x = 0%Z /\
     quiet (after "git pull --rebase" d x) /\
     tree (after "git pull --rebase" d x) = tree x) ->
  quiet w0 ->
  let w1 := sync_world d v f w0 in
  sync_result d v f w0 = Returns [] /\
  sync_result d v f w1 = Returns [] /\
  commands (sync_log d v f w1) =
    ["git stash list"; "git diff --quiet HEAD"; "git pull --rebase"] /\
  tree (sync_world d v f w1) = tree w1.
Proof.
  intros Htext Hcd Hgit Hlist Hdiff Hpull Hq0. cbv zeta.
  assert (once : forall x, quiet x ->
            sync_result d v f x = Returns [] /\
            commands (sync_log d v f x) =
              ["git stash list"; "git diff --quiet HEAD"; "git pull --rebase"] /\
            quiet (sync_world d v f x) /\
            tree (sync_world d v f x) = tree x).
  { intros x Hx.
    destruct (Hcd x Hx) as (Hdir & Hq1 & Ht1).
    destruct (Hlist _ Hq1) as (Hnone & Hq2 & Ht2).
    along_path d v f x (conj Hdir (Hgit _ Hq1)) Htext.
    rewrite Hnone in Estashed. cbn [truthy] in Estashed. subst stashed.
    subst w3.
    destruct (Hdiff _ Hq2) as (Hd & Hq3 & Ht3).
    rewrite Hd in Ediverged. cbn in Ediverged. subst diverged. subst w5.
    destruct (Hpull _ Hq3) as (Hp & Hq4 & Ht4).
    rewrite Hp in Epull. cbn in Epull. subst pull_failed.
    cbn [andb orb negb app] in *.
    rewrite Eresult, Elog, Eworld.
    repeat split; try assumption.
    rewrite Ht4, Ht3, Ht2, Ht1. reflexivity. }
  destruct (once w0 Hq0) as (R0 & _ & Q1 & _).
  destruct (once _ Q1) as (R1 & L1 & _ & T1).
  auto.
Qed.

(** what [print] writes *)
Lemma print_items_run (all_issues : list string) (s : proc World) :
  print_items all_issues s =
  (Returns tt,
   {| world := world s;
      console := console s ++ map (fun issue => (("- " ++ issue) ++ nl)%string) all_issues;
      calls := calls s |}).
Proof.
  revert s. induction all_issues as [| issue rest IH]; intros s.
  - destruct s. cbn. rewrite app_nil_r. reflexivity.
  - cbn [print_items map]. rewrite bind_eq. unfold print at 1, write at 1.
    cbn [encodable unlimited]. cbv beta iota. rewrite IH. cbn [world console calls].
    rewrite <- app_assoc. reflexivity.
Qed.

(** an exception in the traversal ends [main] before its report *)
Lemma main_raises_with_traversal
    (args : arguments) (w0 : World) (e : exn) (s1 : proc World) :
  run (collect_issues args) w0 = (Raises e, s1) ->
  run (main args) w0 = (Raises e, s1).
Proof.
  intros Hrun. unfold run in *. unfold main. rewrite bind_eq, Hrun. reflexivity.
Qed.

(** C9.  Whatever list of issues the traversal ends with, empty or not,
    [main] then returns normally, having printed after the traversal's output
    the line ["All projects updated successfully!"] and, exactly when the
    list is not empty, the line ["Summary of issues:"] followed by one
    ["- <issue>"] line per issue, in order. *)
Theorem C9_banner_always_summary_iff_issues
    (args : arguments) (w0 : World) (all_issues : list string) (s1 : proc World) :
  run (collect_issues args) w0 = (Returns all_issues, s1) ->
  let banner := ((nl ++ GREEN ++ "All projects updated successfully!" ++ DEFAULT)
                 ++ nl)%string in
  let header := ((nl ++ YELLOW ++ "Summary of issues:" ++ DEFAULT) ++ nl)%string in
  let summary :=
    header :: map (fun issue => (("- " ++ issue) ++ nl)%string) all_issues in
  run (main args) w0 =
  (Returns tt,
   {| world := world s1;
      console := console s1 ++ banner :: (match all_issues with
                                          | [] => []
                                          | _ :: _ => summary
                                          end);
      calls := calls s1 |}) /\
  ((exists before, console (snd (run (main args) w0)) = before ++ summary)
   <-> all_issues <> []).
Proof.
  intros Hrun. cbv zeta.
  assert (E : run (main args) w0 =
    (Returns tt,
     {| world := world s1;
        console := console s1
          ++ ((nl ++ GREEN ++ "All projects updated successfully!" ++ DEFAULT)
              ++ nl)%string
          :: (match all_issues with
              | [] => []
              | _ :: _ =>
                  ((nl ++ YELLOW ++ "Summary of issues:" ++ DEFAULT) ++ nl)%string
                  :: map (fun issue => (("- " ++ issue) ++ nl)%string) all_issues
              end);
        calls := calls s1 |})).
  { unfold run in *. unfold main. rewrite bind_eq, Hrun. cbv beta iota.
    rewrite bind_eq. unfold print at 1, write at 1. cbn [encodable unlimited].
    cbv beta iota.
    destruct all_issues as [| i rest].
    - reflexivity.
    - rewrite bind_eq. unfold print at 1, write at 1. cbn [encodable unlimited].
    cbv beta iota.
      rewrite print_items_run. cbn [world console calls].
      rewrite <- !app_assoc. reflexivity. }
  split; [exact E |].
  rewrite E. cbn [snd console].
  split.
  - intros [before Hb] ->. cbn [map] in Hb.
    apply app_inj_tail in Hb. destruct Hb as [_ Hb].
    cbv in Hb. discriminate Hb.
  - intros Hne. destruct all_issues as [| i rest]; [contradiction |].
    exists (console s1 ++ [((nl ++ GREEN ++ "All projects updated successfully!"
                              ++ DEFAULT) ++ nl)%string]).
    rewrite <- app_assoc. reflexivity.
Qed.

End Claims.

(** ** Properties that name the limits of the process

    The theorems of this section hold for every process: what they need of
    it is among their hypotheses. *)

Section Limited.

Context {World : Type} {host : Host World} {limits : Limits World}.

(** C1. When the pull with rebase of a conservative run ([force = false])
    fails, the next child is the rebase that favors incoming changes; when
    that one fails too, the run returns a list of issues that ends with
    ["Unable to resolve conflicts in <path>. Manual intervention required."],
    which occurs exactly once in it (the only other issue there can be is
    the one of a stash entry that did not reapply); its last child is
    [git rebase --abort], and the world it leaves is the one the abort left:
    whatever marks a rebase in progress and is cleared by an abort is
    cleared at the end.  The run is one on a checkout that the process may
    enter, with children that print text and, in verbose mode, a console
    that takes the narration. *)
Theorem C1_failed_retry_is_reported_and_aborted (d : string) (v : bool) (w0 w : World) :
  checkout d w0 ->
  enterable d w0 = true ->
  (v = true -> forall line x, encodable line x = true) ->
  text_output d ->
  In (Call "git pull --rebase" d w) (sync_log d v false w0) ->
  exit_status "git pull --rebase" d w <> 0%Z ->
  let w' := after "git pull --rebase" d w in
  let w'' := after "git rebase --strategy-option=theirs" d w' in
  let unable :=
    ("Unable to resolve conflicts in " ++ d ++ ". Manual intervention required.")%string in
  let failed := ("Failed to apply stashed changes in " ++ d)%string in
  (exists earlier later,
     sync_log d v false w0 =
     earlier ++ [Call "git pull --rebase" d w;
                 Call "git rebase --strategy-option=theirs" d w'] ++ later) /\
  (exit_status "git rebase --strategy-option=theirs" d w' <> 0%Z ->
   (exists issues,
      sync_result d v false w0 = Returns issues /\
      (issues = [unable] \/ issues = [failed; unable]) /\
      count_occ string_dec issues unable = 1) /\
   (exists earlier,
      sync_log d v false w0 =
      earlier ++ [Call "git pull --rebase" d w;
                  Call "git rebase --strategy-option=theirs" d w';
                  Call "git rebase --abort" d w'']) /\
   sync_world d v false w0 = after "git rebase --abort" d w'' /\
   forall rebasing : World -> bool,
     (forall x, rebasing (after "git rebase --abort" d x) = false) ->
     rebasing (sync_world d v false w0) = false).
Proof.
  intros Hco Henter Hv Htext Hin Hfail. cbv zeta.
  change ("Unable to resolve conflicts in " ++ d ++ ". Manual intervention required.")%string
    with (unable_to_resolve d).
  change ("Failed to apply stashed changes in " ++ d)%string with (failed_to_apply d).
  along_limited_path d v false w0 Hco Henter Hv Htext.
  rewrite Elog in Hin.
  assert (Hw : w = w5).
  { destruct stashed, diverged, pull_failed, retry_failed; locate Hin;
      injection Hin as <-; reflexivity. }
  subst w.
  rewrite (nonzero_test _ Hfail) in Epull. subst pull_failed.
  cbn [orb andb negb] in *.
  split.
  - rewrite Elog, app_assoc. eexists. eexists. reflexivity.
  - intros Hretry.
    rewrite (nonzero_test _ Hretry) in Eretry. subst retry_failed.
    rewrite Eresult, Eworld, Elog.
    split; [| split; [| split]].
    + eexists. split; [reflexivity |]. split.
      * destruct (stashed && apply_failed); [right | left]; reflexivity.
      * rewrite count_occ_app.
        assert (Hnone : count_occ string_dec
                  (if stashed && apply_failed then [failed_to_apply d] else [])
                  (unable_to_resolve d) = 0).
        { destruct (stashed && apply_failed); [| reflexivity].
          apply count_occ_not_In. intros [H | []].
          exact (issue_strings_differ d H). }
        rewrite Hnone. cbn [count_occ].
        destruct (string_dec (unable_to_resolve d) (unable_to_resolve d));
          [reflexivity | contradiction].
    + rewrite app_assoc. eexists. reflexivity.
    + reflexivity.
    + intros rebasing Habort. apply Habort.
Qed.

(** C4. When [git stash list] prints something at the start of a run, the
    next child is [git stash apply]; when that one fails, the list of issues
    starts with ["Failed to apply stashed changes in <path>"], which occurs
    nowhere else in it, and the run goes on as usual: the divergence check is
    the next child, a pull follows, and the run returns normally.  The run
    is one on a checkout that the process may enter, with children that
    print text and, in verbose mode, a console that takes the narration. *)
Theorem C4_failed_reapply_is_reported_and_sync_goes_on
    (d : string) (v f : bool) (w0 : World) :
  checkout d w0 ->
  enterable d w0 = true ->
  (v = true -> forall line x, encodable line x = true) ->
  text_output d ->
  let w1 := chdir d w0 in
  let w2 := after "git stash list" d w1 in
  let w3 := after "git stash apply" d w2 in
  let failed := ("Failed to apply stashed changes in " ++ d)%string in
  truthy (strip (printed "git stash list" d w1)) = true ->
  (exists later,
     sync_log d v f w0 =
     [Call "git stash list" d w1; Call "git stash apply" d w2] ++ later) /\
  (exit_status "git stash apply" d w2 <> 0%Z ->
   exists others later,
     sync_result d v f w0 = Returns (failed :: others) /\
     ~ In failed others /\
     sync_log d v f w0 =
     [Call "git stash list" d w1; Call "git stash apply" d w2;
      Call "git diff --quiet HEAD" d w3] ++ later /\
     exists w, In (Call "git pull --rebase" d w) later).
Proof.
  intros Hco Henter Hv Htext. cbv zeta. intros Hstash.
  change ("Failed to apply stashed changes in " ++ d)%string with (failed_to_apply d).
  along_limited_path d v f w0 Hco Henter Hv Htext.
  rewrite Hstash in Estashed. subst stashed. cbn [andb] in *.
  split.
  - rewrite Elog. cbn [app]. eexists. reflexivity.
  - intros Hfail. rewrite (nonzero_test _ Hfail) in Eapply. subst apply_failed.
    rewrite Eresult, Elog. subst w3. cbn [app].
    eexists. eexists. split; [reflexivity |]. split.
    + destruct (pull_failed && negb f && retry_failed); [| intros []].
      intros [H | []]. symmetry in H. exact (issue_strings_differ d H).
    + split; [reflexivity |].
      exists w5. destruct diverged; cbn [app In]; auto.
Qed.



End Limited.

Section Unchecked.

Context {World : Type} (host : Host World) (limits : Limits World)
  (status : string -> string -> World -> Z).

(** a command outside [unchecked] answers the same on both hosts *)
Lemma checked_command_same (c d : string) (s : proc World) :
  mem c unchecked = false ->
  @run_git_command World (with_exit_status host status) c d s = @run_git_command World host c d s.
Proof.
  intros Hc.
  unfold run_git_command, popen_communicate, bind, with_exit_status.
  cbn [spawn fst snd]. rewrite Hc. reflexivity.
Qed.

(** a command whose answer is dropped continues the same on both hosts *)
Lemma dropped_answer_same {B} (c d : string) (k k' : M World B) (s : proc World) :
  (forall x, k' x = k x) ->
  bind (@run_git_command World (with_exit_status host status) c d) (fun _ => k') s =
  bind (@run_git_command World host c d) (fun _ => k) s.
Proof.
  intros Hk.
  unfold run_git_command, popen_communicate, decode, bind, with_exit_status.
  cbn [spawn fst snd stdout_bytes stderr_bytes].
  destruct (mem c unchecked); cbn [stdout_bytes stderr_bytes];
    destruct (utf8_decode (stdout_bytes (fst (@spawn _ host c d (world s)))));
    cbn; try reflexivity;
    destruct (utf8_decode (stderr_bytes (fst (@spawn _ host c d (world s)))));
    cbn; try reflexivity; apply Hk.
Qed.

Lemma check_stashes_same (d : string) (v : bool) (issues : list string) (s : proc World) :
  @check_stashes World (with_exit_status host status) limits d v issues s = @check_stashes World host limits d v issues s.
Proof.
  unfold check_stashes. rewrite !bind_eq.
  rewrite checked_command_same by reflexivity.
  destruct (@run_git_command World host "git stash list" d s) as [[[[rc o] e] | x] s'];
    [| reflexivity].
  destruct (truthy (strip o)); [| reflexivity].
  rewrite !bind_eq. destruct (when v _ s') as [[[] | x] s'']; [| reflexivity].
  rewrite !bind_eq. rewrite checked_command_same by reflexivity. reflexivity.
Qed.

Lemma check_uncommitted_same (d : string) (v f : bool) (s : proc World) :
  @check_uncommitted World (with_exit_status host status) limits d v f s = @check_uncommitted World host limits d v f s.
Proof.
  unfold check_uncommitted. rewrite !bind_eq.
  rewrite checked_command_same by reflexivity.
  destruct (@run_git_command World host "git diff --quiet HEAD" d s)
    as [[[[rc o] e] | x] s']; [| reflexivity].
  destruct (negb (rc =? 0)%Z); [| reflexivity].
  destruct f; rewrite !bind_eq;
    (destruct (when v _ s') as [[[] | x] s'']; [| reflexivity]);
    apply dropped_answer_same; reflexivity.
Qed.

Lemma try_pull_same (d : string) (v f : bool) (issues : list string) (s : proc World) :
  @try_pull World (with_exit_status host status) limits d v f issues s = @try_pull World host limits d v f issues s.
Proof.
  unfold try_pull. rewrite !bind_eq.
  rewrite checked_command_same by reflexivity.
  destruct (@run_git_command World host "git pull --rebase" d s)
    as [[[[rc o] e] | x] s']; [| reflexivity].
  destruct (negb (rc =? 0)%Z); [| reflexivity].
  rewrite !bind_eq. destruct (when v _ s') as [[[] | x] s'']; [| reflexivity].
  destruct f; rewrite !bind_eq;
    (destruct (when v _ s'') as [[[] | x] s3]; [| reflexivity]).
  - apply dropped_answer_same. intros y.
    apply dropped_answer_same. reflexivity.
  - rewrite !bind_eq. rewrite checked_command_same by reflexivity.
    destruct (@run_git_command World host "git rebase --strategy-option=theirs" d s3)
      as [[[[rc' o'] e'] | x] s4]; [| reflexivity].
    destruct (negb (rc' =? 0)%Z); [| reflexivity].
    apply dropped_answer_same. reflexivity.
Qed.

(** C10.  Let the hard reset to [HEAD], [git stash], [git fetch --all], the
    hard reset to the upstream ref and [git rebase --abort] exit with any
    status at all, everything else being equal: a call of
    [git_pull_with_resolve] returns the same issues, prints the same lines,
    starts the same children in the same worlds and leaves the same world.
    The script never looks at the exit status of these five. *)
Theorem C10_unchecked_exit_statuses_are_ignored
    (d : string) (v f : bool) (s : proc World) :
  @git_pull_with_resolve World (with_exit_status host status) limits d v f s =
  @git_pull_with_resolve World host limits d v f s.
Proof.
  unfold git_pull_with_resolve.
  rewrite !bind_eq.
  change (@os_chdir World (with_exit_status host status) limits d s) with (@os_chdir World host limits d s).
  destruct (@os_chdir World host limits d s) as [[[] | x] s1]; [| reflexivity].
  rewrite !bind_eq.
  change (@os_path_exists World (with_exit_status host status) (os_path_join d ".git") s1)
    with (@os_path_exists World host (os_path_join d ".git") s1).
  destruct (@os_path_exists World host (os_path_join d ".git") s1)
    as [[g | x] s2]; [| reflexivity].
  destruct (negb g); [reflexivity |].
  rewrite !bind_eq. rewrite check_stashes_same.
  destruct (@check_stashes World host limits d v [] s2) as [[i1 | x] s3]; [| reflexivity].
  rewrite !bind_eq. rewrite check_uncommitted_same.
  destruct (@check_uncommitted World host limits d v f s3) as [[[] | x] s4]; [| reflexivity].
  rewrite !bind_eq. rewrite try_pull_same.
  reflexivity.
Qed.

End Unchecked.

(** ** The simulated machine: facts for the worked runs *)

Module SimFacts.

Import Sim.

Lemma decode_ascii_prefix (a l : list byte) :
  forallb (fun b => (Byte.to_N b <? 128)%N) a = true ->
  is_some (utf8_decode (a ++ l)) = is_some (utf8_decode l).
Proof.
  induction a as [| b a IH]; intros H; [reflexivity |].
  cbn [forallb] in H. apply andb_true_iff in H. destruct H as [Hb Ha].
  change ((b :: a) ++ l) with (b :: (a ++ l)).
  unfold utf8_decode at 1. fold utf8_decode. cbv zeta.
  rewrite Hb, <- (IH Ha). destruct (utf8_decode (a ++ l)); reflexivity.
Qed.

Lemma decode_stash_list (n : nat) : is_some (utf8_decode (stash_list n)) = true.
Proof.
  induction n as [| n IH]; [reflexivity |].
  cbn [stash_list]. rewrite decode_ascii_prefix; [exact IH | reflexivity].
Qed.

(** the simulated tool prints text *)
Lemma git_readable (c : string) (r : repo) :
  is_some (utf8_decode (stdout_bytes (fst (git c r))))
  && is_some (utf8_decode (stderr_bytes (fst (git c r)))) = true.
Proof.
  unfold git.
  repeat match goal with
         | |- context [if (c =? ?k)%string then _ else _] =>
             destruct (c =? k)%string
         end;
    repeat match goal with
           | |- context [match ?b with _ => _ end] =>
               match type of b with
               | bool => destruct b
               | nat => destruct b
               end
           end;
    cbn [fst stdout_bytes stderr_bytes ok failed andb];
    rewrite ?decode_stash_list; reflexivity.
Qed.

Lemma sim_text_output (d : string) : @text_output machine sim_host d.
Proof.
  intros c w. unfold readable. cbn [spawn sim_host]. unfold sim_spawn.
  destruct (lookup d (m_checkouts w)) as [r |].
  - cbn [fst]. apply git_readable.
  - reflexivity.
Qed.

Lemma lookup_update (d : string) (r r' : repo) (l : list (string * repo)) :
  lookup d l = Some r -> lookup d (update d r' l) = Some r'.
Proof.
  induction l as [| [k r0] l IH]; [discriminate |].
  cbn [lookup update]. destruct (k =? d)%string eqn:E.
  - intros _. cbn [lookup]. rewrite E. reflexivity.
  - intros H. cbn [lookup]. rewrite E. exact (IH H).
Qed.

Lemma update_same (d : string) (r : repo) (l : list (string * repo)) :
  lookup d l = Some r -> update d r l = l.
Proof.
  induction l as [| [k r0] l IH]; [reflexivity |].
  cbn [lookup update]. destruct (k =? d)%string.
  - intros H. injection H as ->. reflexivity.
  - intros H. rewrite (IH H). reflexivity.
Qed.

Lemma lookup_has_git (d : string) (r : repo) (l : list (string * repo)) :
  lookup d l = Some r ->
  mem (os_path_join d ".git") (map (fun c => os_path_join (fst c) ".git") l) = true.
Proof.
  induction l as [| [k r0] l IH]; [discriminate |].
  cbn [lookup map mem existsb fst]. destruct (String.eqb_spec k d) as [-> | _].
  - intros _. rewrite String.eqb_refl. reflexivity.
  - intros H. apply IH in H. unfold mem in H. rewrite H. apply orb_true_r.
Qed.

(** the world a command leaves, read at the checkout it ran in *)
Lemma after_at (c d : string) (m : machine) (r : repo) :
  lookup d (m_checkouts m) = Some r ->
  lookup d (m_checkouts (after c d m)) = Some (snd (git c r)).
Proof.
  intros H. unfold after. cbn [spawn sim_host]. unfold sim_spawn. rewrite H.
  cbn [snd m_checkouts]. exact (lookup_update d r _ _ H).
Qed.

Lemma after_outside (c d : string) (m : machine) :
  lookup d (m_checkouts m) = None -> after c d m = m.
Proof.
  intros H. unfold after. cbn [spawn sim_host]. unfold sim_spawn. rewrite H.
  reflexivity.
Qed.

(** [git rebase --abort] leaves no rebase in progress *)
Lemma abort_clears (d : string) (m : machine) :
  rebase_in_progress d (after "git rebase --abort" d m) = false.
Proof.
  unfold rebase_in_progress.
  destruct (lookup d (m_checkouts m)) as [r |] eqn:E.
  - rewrite (after_at _ _ _ _ E). cbn. destruct (rebasing r) eqn:R; cbn; auto.
  - rewrite (after_outside _ _ _ E), E. reflexivity.
Qed.

(** the simulated listings give entry names *)
Lemma entries_plain (p : string) (qs : list string) (name : string) :
  In name (entries p qs) -> str_in "/" name = false.
Proof.
  induction qs as [| q rest IH]; cbn [entries]; [intros [] |].
  unfold entry_of. destruct (drop_prefix (p ++ "/") q) as [n |]; [| exact IH].
  destruct (str_in "/" n || (n =? "")%string) eqn:E; [exact IH |].
  intros [<- | H]; [| exact (IH H)].
  apply orb_false_iff in E. exact (proj1 E).
Qed.

Lemma sim_plain_listings : @plain_listings machine sim_host.
Proof.
  intros path w names H name Hin. cbn [listdir sim_host] in H.
  unfold sim_listdir in H. destruct (sim_isdir path w); [| discriminate].
  injection H as <-. exact (entries_plain _ _ _ Hin).
Qed.

(** neither the fetch nor the reset to the upstream ref ends a rebase *)
Lemma fetch_keeps_rebase (d : string) (m : machine) :
  rebase_in_progress d m = true ->
  rebase_in_progress d (after "git fetch --all" d m) = true.
Proof.
  unfold rebase_in_progress.
  destruct (lookup d (m_checkouts m)) as [r |] eqn:E; [| discriminate].
  rewrite (after_at _ _ _ _ E). cbn. auto.
Qed.

Lemma reset_keeps_rebase (d : string) (m : machine) :
  rebase_in_progress d m = true ->
  rebase_in_progress d
    (after "git reset --hard origin/$(git rev-parse --abbrev-ref HEAD)" d m) = true.
Proof.
  unfold rebase_in_progress.
  destruct (lookup d (m_checkouts m)) as [r |] eqn:E; [| discriminate].
  rewrite (after_at _ _ _ _ E). cbn. intros H. rewrite H. cbn. exact H.
Qed.

(** the queries and the pull do not touch the stash *)
Lemma stash_count_kept (c d : string) (m : machine) :
  In c ["git stash list"; "git stash apply"; "git diff --quiet HEAD";
        "git pull --rebase"] ->
  stash_count d (after c d m) = stash_count d m.
Proof.
  intros Hc. unfold stash_count.
  destruct (lookup d (m_checkouts m)) as [r |] eqn:E.
  - rewrite (after_at _ _ _ _ E).
    destruct r as [n dr ao h u cf th rb].
    cbn [In] in Hc. destruct Hc as [<- | [<- | [<- | [<- | []]]]]; cbn.
    + reflexivity.
    + destruct n; [reflexivity |]. destruct ao; reflexivity.
    + reflexivity.
    + destruct dr; [reflexivity |].
      destruct (h =? u)%nat; [reflexivity |].
      destruct cf; reflexivity.
  - rewrite (after_outside _ _ _ E), E. reflexivity.
Qed.

Lemma quiet_inv (d : string) (m : machine) :
  quiet d m = true ->
  sim_isdir d m = true /\
  exists r, lookup d (m_checkouts m) = Some r /\
            stashes r = 0 /\ dirty r = false /\ (head r =? upstream r)%nat = true
            /\ rebasing r = false.
Proof.
  unfold quiet. intros H. apply andb_true_iff in H. destruct H as [Hd H].
  split; [exact Hd |].
  destruct (lookup d (m_checkouts m)) as [r |]; [| discriminate].
  exists r. split; [reflexivity |].
  repeat (apply andb_true_iff in H; destruct H as [H ?]).
  apply Nat.eqb_eq in H.
  repeat split; auto; apply negb_true_iff; assumption.
Qed.

(** a command that leaves the checkout as it is leaves a quiet world quiet *)
Lemma quiet_kept (c d : string) (m : machine) (r : repo) :
  quiet d m = true ->
  lookup d (m_checkouts m) = Some r ->
  snd (git c r) = r ->
  after c d m = m.
Proof.
  intros _ E Hsame. unfold after. cbn [spawn sim_host]. unfold sim_spawn.
  rewrite E. cbn [snd]. rewrite Hsame, (update_same d r _ E).
  destruct m; reflexivity.
Qed.

Lemma mem_app (p : string) (l1 l2 : list string) :
  mem p (l1 ++ l2) = mem p l1 || mem p l2.
Proof. unfold mem. apply existsb_app. Qed.

Lemma quiet_chdir (d : string) (m : machine) :
  quiet d m = true ->
  path_isdir d m = true /\ quiet d (chdir d m) = true /\ tree d (chdir d m) = tree d m.
Proof.
  intros H. destruct (quiet_inv d m H) as [Hd _]. repeat split; assumption.
Qed.

Lemma quiet_has_git (d : string) (m : machine) :
  quiet d m = true -> path_exists (os_path_join d ".git") m = true.
Proof.
  intros H. destruct (quiet_inv d m H) as (_ & r & E & _).
  cbn [path_exists sim_host]. unfold sim_isdir, paths.
  rewrite !mem_app, (lookup_has_git d r _ E), !orb_true_r. reflexivity.
Qed.

Lemma quiet_stash_list (d : string) (m : machine) :
  quiet d m = true ->
  strip (printed "git stash list" d m) = [] /\
  quiet d (after "git stash list" d m) = true /\
  tree d (after "git stash list" d m) = tree d m.
Proof.
  intros H. destruct (quiet_inv d m H) as (_ & r & E & Hs & _).
  rewrite (quiet_kept "git stash list" d m r H E eq_refl).
  repeat split; try assumption.
  unfold printed. cbn [spawn sim_host]. unfold sim_spawn. rewrite E.
  cbn. rewrite Hs. reflexivity.
Qed.

Lemma quiet_diff (d : string) (m : machine) :
  quiet d m = true ->
  exit_status "git diff --quiet HEAD" d m = 0%Z /\
  quiet d (after "git diff --quiet HEAD" d m) = true /\
  tree d (after "git diff --quiet HEAD" d m) = tree d m.
Proof.
  intros H. destruct (quiet_inv d m H) as (_ & r & E & _ & Hd & _).
  rewrite (quiet_kept "git diff --quiet HEAD" d m r H E eq_refl).
  repeat split; try assumption.
  unfold exit_status. cbn [spawn sim_host]. unfold sim_spawn. rewrite E.
  cbn. rewrite Hd. reflexivity.
Qed.

Lemma quiet_pull (d : string) (m : machine) :
  quiet d m = true ->
  exit_status "git pull --rebase" d m = 0%Z /\
  quiet d (after "git pull --rebase" d m) = true /\
  tree d (after "git pull --rebase" d m) = tree d m.
Proof.
  intros H. destruct (quiet_inv d m H) as (_ & r & E & _ & Hd & Hu & _).
  assert (Hsame : snd (git "git pull --rebase" r) = r)
    by (cbn; rewrite Hd, Hu; reflexivity).
  rewrite (quiet_kept "git pull --rebase" d m r H E Hsame).
  repeat split; try assumption.
  unfold exit_status. cbn [spawn sim_host]. unfold sim_spawn. rewrite E.
  cbn. rewrite Hd, Hu. reflexivity.
Qed.

End SimFacts.

(** ** Worked runs *)

(** A conservative run on [Sim.m_conflict]: the pull stops on a conflict,
    the retry fails, the rebase is aborted. *)
Lemma C1_witness :
  let w := after "git diff --quiet HEAD" Sim.app
             (after "git stash list" Sim.app (chdir Sim.app Sim.m_conflict)) in
  exit_status "git pull --rebase" Sim.app w = 1%Z /\
  exit_status "git rebase --strategy-option=theirs" Sim.app
    (after "git pull --rebase" Sim.app w) = 128%Z /\
  sync_result Sim.app false false Sim.m_conflict
    = Returns ["Unable to resolve conflicts in /home/u/comfyui-launcher/server/projects/demo/comfyui. Manual intervention required."] /\
  Sim.rebase_in_progress Sim.app (after "git pull --rebase" Sim.app w) = true /\
  Sim.rebase_in_progress Sim.app (sync_world Sim.app false false Sim.m_conflict)
    = false.
Proof.
  cbv zeta.
  assert (Hco : checkout Sim.app Sim.m_conflict) by (split; reflexivity).
  assert (Henter : @enterable Sim.machine unlimited Sim.app Sim.m_conflict = true)
    by reflexivity.
  assert (Hv : false = true ->
               forall (line : string) (x : Sim.machine),
                 @encodable Sim.machine unlimited line x = true)
    by discriminate.
  assert (Hin : In (Call "git pull --rebase" Sim.app
                      (after "git diff --quiet HEAD" Sim.app
                         (after "git stash list" Sim.app
                            (chdir Sim.app Sim.m_conflict))))
                   (sync_log Sim.app false false Sim.m_conflict))
    by (vm_compute; tauto).
  assert (Hfail : exit_status "git pull --rebase" Sim.app
                    (after "git diff --quiet HEAD" Sim.app
                       (after "git stash list" Sim.app
                          (chdir Sim.app Sim.m_conflict))) <> 0%Z)
    by (vm_compute; discriminate).
  destruct (C1_failed_retry_is_reported_and_aborted Sim.app false Sim.m_conflict _
              Hco Henter Hv (SimFacts.sim_text_output Sim.app) Hin Hfail) as [_ H].
  destruct H as ((issues & Hres & _ & _) & _ & _ & Hreb); [vm_compute; discriminate |].
  split; [reflexivity |]. split; [reflexivity |]. split; [reflexivity |].
  split; [reflexivity |].
  apply Hreb. apply SimFacts.abort_clears.
Defined.

(** A forced run on [Sim.m_stuck]: the tree differs from [HEAD] and is
    reset, yet the run reports the stash entry that did not reapply. *)
Lemma C2_counterexample :
  let d := Sim.app in
  let w := after "git stash apply" d (after "git stash list" d (chdir d Sim.m_stuck)) in
  checkout d Sim.m_stuck /\
  In (Call "git diff --quiet HEAD" d w) (sync_log d false true Sim.m_stuck) /\
  exit_status "git diff --quiet HEAD" d w = 1%Z /\
  sync_result d false true Sim.m_stuck
    = Returns ["Failed to apply stashed changes in /home/u/comfyui-launcher/server/projects/demo/comfyui"].
Proof.
  cbv zeta. split; [split; reflexivity |].
  split; [vm_compute; tauto |]. split; reflexivity.
Qed.

Lemma C2_witness :
  let d := Sim.app in
  let w := after "git stash apply" d (after "git stash list" d (chdir d Sim.m_stuck)) in
  exit_status "git diff --quiet HEAD" d w = 1%Z /\
  exists issues,
    sync_result d false true Sim.m_stuck = Returns issues /\
    (issues = [] \/ issues = [failed_to_apply d]).
Proof.
  cbv zeta. split; [reflexivity |].
  assert (Hco : checkout Sim.app Sim.m_stuck) by (split; reflexivity).
  assert (Hin : In (Call "git diff --quiet HEAD" Sim.app
                      (after "git stash apply" Sim.app
                         (after "git stash list" Sim.app (chdir Sim.app Sim.m_stuck))))
                   (sync_log Sim.app false true Sim.m_stuck))
    by (vm_compute; tauto).
  assert (Hdiv : exit_status "git diff --quiet HEAD" Sim.app
                   (after "git stash apply" Sim.app
                      (after "git stash list" Sim.app (chdir Sim.app Sim.m_stuck)))
                 <> 0%Z)
    by (vm_compute; discriminate).
  destruct (C2_forced_discard_precedes_pull Sim.app false Sim.m_stuck _
              Hco (SimFacts.sim_text_output Sim.app) Hin Hdiv)
    as [_ (issues & Hres & Hshape & _)].
  exists issues. split; assumption.
Defined.

(** A conservative run on [Sim.m_dirty]: the local modifications go onto
    the stash, the pull has nothing to do. *)
Lemma C3_witness :
  let d := Sim.app in
  let w := after "git stash list" d (chdir d Sim.m_dirty) in
  exit_status "git diff --quiet HEAD" d w = 1%Z /\
  Sim.stash_count d Sim.m_dirty = 0 /\
  Sim.stash_count d (sync_world d false false Sim.m_dirty) = 1.
Proof.
  cbv zeta. split; [reflexivity |]. split; [reflexivity |].
  assert (Hco : checkout Sim.app Sim.m_dirty) by (split; reflexivity).
  assert (Hin : In (Call "git diff --quiet HEAD" Sim.app
                      (after "git stash list" Sim.app (chdir Sim.app Sim.m_dirty)))
                   (sync_log Sim.app false false Sim.m_dirty))
    by (vm_compute; tauto).
  assert (Hdiv : exit_status "git diff --quiet HEAD" Sim.app
                   (after "git stash list" Sim.app (chdir Sim.app Sim.m_dirty))
                 <> 0%Z)
    by (vm_compute; discriminate).
  destruct (C3_conservative_run_shelves Sim.app false Sim.m_dirty _
              Hco (SimFacts.sim_text_output Sim.app) Hin Hdiv) as [_ H].
  destruct H as (_ & _ & Hcount); [reflexivity |].
  apply (Hcount (Sim.stash_count Sim.app)).
  - intros x. reflexivity.
  - intros c x Hc. apply SimFacts.stash_count_kept. exact Hc.
  - reflexivity.
Defined.

(** A run on [Sim.m_stuck]: the stash entry does not reapply, and the run
    goes on to the divergence check and the pull. *)
Lemma C4_witness :
  let d := Sim.app in
  exit_status "git stash apply" d (after "git stash list" d (chdir d Sim.m_stuck))
    = 1%Z /\
  exists (others : list string) (later : list (call Sim.machine)),
    sync_result d true false Sim.m_stuck =
    Returns ("Failed to apply stashed changes in /home/u/comfyui-launcher/server/projects/demo/comfyui"
             :: others) /\
    exists w : Sim.machine, In (Call "git pull --rebase" d w) later.
Proof.
  cbv zeta. split; [reflexivity |].
  assert (Hco : checkout Sim.app Sim.m_stuck) by (split; reflexivity).
  assert (Henter : @enterable Sim.machine unlimited Sim.app Sim.m_stuck = true)
    by reflexivity.
  assert (Hv : true = true ->
               forall (line : string) (x : Sim.machine),
                 @encodable Sim.machine unlimited line x = true)
    by (intros _ line x; reflexivity).
  assert (Hstash : truthy (strip (printed "git stash list" Sim.app
                                     (chdir Sim.app Sim.m_stuck))) = true)
    by reflexivity.
  destruct (C4_failed_reapply_is_reported_and_sync_goes_on Sim.app true false
              Sim.m_stuck Hco Henter Hv (SimFacts.sim_text_output Sim.app) Hstash)
    as [_ H].
  destruct H as (others & later & Hres & _ & _ & Hpull); [vm_compute; discriminate |].
  exists others, later. split; assumption.
Defined.



(** [node_b] is a plain directory among the custom nodes. *)
Lemma C6_witness :
  sync_result Sim.node_b true false Sim.m_quiet = Returns [] /\
  sync_log Sim.node_b true false Sim.m_quiet = [].
Proof.
  assert (Hdir : path_isdir Sim.node_b Sim.m_quiet = true) by reflexivity.
  assert (Hgit : path_exists (os_path_join Sim.node_b ".git")
                   (chdir Sim.node_b Sim.m_quiet) = false) by reflexivity.
  destruct (C6_no_metadata_is_skipped Sim.node_b true false Sim.m_quiet
              Hdir Hgit) as (Hres & Hlog & _).
  split; assumption.
Defined.



(** Two calls in a row on the main checkout of [Sim.m_quiet]. *)
Lemma C8_witness :
  let w1 := sync_world Sim.app false false Sim.m_quiet in
  Sim.quiet Sim.app Sim.m_quiet = true /\
  sync_result Sim.app false false Sim.m_quiet = Returns [] /\
  sync_result Sim.app false false w1 = Returns [] /\
  Sim.tree Sim.app (sync_world Sim.app false false w1) = Sim.tree Sim.app w1.
Proof.
  cbv zeta. split; [reflexivity |].
  assert (Hq : Sim.quiet Sim.app Sim.m_quiet = true) by reflexivity.
  destruct (C8_twice_on_a_quiet_checkout Sim.app false false
              (fun m => Sim.quiet Sim.app m = true) (option Sim.repo)
              (Sim.tree Sim.app) Sim.m_quiet
              (SimFacts.sim_text_output Sim.app)
              (SimFacts.quiet_chdir Sim.app)
              (SimFacts.quiet_has_git Sim.app)
              (SimFacts.quiet_stash_list Sim.app)
              (SimFacts.quiet_diff Sim.app)
              (SimFacts.quiet_pull Sim.app)
              Hq) as (R0 & R1 & _ & T1).
  repeat split; assumption.
Defined.

(** [main] on [Sim.m_stuck], started outside the projects: one project,
    one issue. *)
Lemma C9_witness :
  let args := Arguments_ false false in
  exists before,
    console (snd (run (main args) Sim.m_stuck)) =
    before
    ++ [((nl ++ GREEN ++ "All projects updated successfully!" ++ DEFAULT) ++ nl)%string;
        ((nl ++ YELLOW ++ "Summary of issues:" ++ DEFAULT) ++ nl)%string;
        (("- " ++ failed_to_apply Sim.app) ++ nl)%string;
        (("- " ++ unable_to_resolve Sim.app) ++ nl)%string].
Proof.
  cbv zeta.
  assert (Hrun : run (collect_issues (Arguments_ false false)) Sim.m_stuck =
                 (Returns [failed_to_apply Sim.app; unable_to_resolve Sim.app],
                  snd (run (collect_issues (Arguments_ false false)) Sim.m_stuck)))
    by (vm_compute; reflexivity).
  destruct (C9_banner_always_summary_iff_issues (Arguments_ false false) Sim.m_stuck
              [failed_to_apply Sim.app; unable_to_resolve Sim.app]
              (snd (run (collect_issues (Arguments_ false false)) Sim.m_stuck))
              Hrun) as [E _].
  rewrite E. cbn [snd console map]. eexists. reflexivity.
Defined.

(** ** Paths *)

Section Paths.

Lemma prefix_slash (c : ascii) (b : string) :
  String.prefix "/" (String c b) = Ascii.eqb c "/".
Proof.
  cbn [String.prefix]. destruct (ascii_dec "/" c) as [<- | Hc].
  - destruct b; reflexivity.
  - symmetry. apply Ascii.eqb_neq. congruence.
Qed.

Lemma str_in_slash_app (a b : string) : str_in "/" (a ++ String "/" b) = true.
Proof.
  induction a as [| c a IH]; cbn [append str_in].
  - rewrite prefix_slash. reflexivity.
  - rewrite IH. apply orb_true_r.
Qed.

Lemma basename_after_slash (a b : string) :
  str_in "/" b = false -> os_path_basename (a ++ String "/" b) = b.
Proof.
  intros Hb. induction a as [| c a IH]; cbn [append os_path_basename].
  - rewrite Hb. reflexivity.
  - rewrite str_in_slash_app. exact IH.
Qed.

Lemma basename_without_slash (b : string) :
  str_in "/" b = false -> os_path_basename b = b.
Proof.
  destruct b as [| c b]; [reflexivity |].
  cbn [os_path_basename str_in]. rewrite prefix_slash.
  intros H. apply orb_false_iff in H. destruct H as [Hc H].
  rewrite H, Hc. reflexivity.
Qed.

Lemma endswith_slash_inv (a : string) :
  endswith_slash a = true -> exists a', a = (a' ++ "/")%string.
Proof.
  induction a as [| c a IH]; [discriminate |].
  cbn [endswith_slash]. destruct a as [| c' a].
  - intros H. apply Ascii.eqb_eq in H. subst c. exists ""%string. reflexivity.
  - intros H. destruct (IH H) as [a' E]. exists (String c a'). cbn. rewrite E.
    reflexivity.
Qed.

Lemma append_assoc (a b c : string) : ((a ++ b) ++ c = a ++ (b ++ c))%string.
Proof. induction a as [| x a IH]; cbn; [reflexivity | rewrite IH; reflexivity]. Qed.

(** [os.path.basename(os.path.join(a, b))] is [b] for every [b] without a
    slash, whatever [a] is *)
Lemma basename_of_join (a b : string) :
  str_in "/" b = false -> os_path_basename (os_path_join a b) = b.
Proof.
  intros Hb. unfold os_path_join, startswith.
  assert (Hp : String.prefix "/" b = false).
  { destruct b as [| c b]; [reflexivity |].
    cbn [str_in] in Hb. apply orb_false_iff in Hb. exact (proj1 Hb). }
  rewrite Hp.
  destruct a as [| c a].
  - apply basename_without_slash. exact Hb.
  - destruct (endswith_slash (String c a)) eqn:E.
    + destruct (endswith_slash_inv _ E) as [a' ->].
      rewrite append_assoc. apply basename_after_slash. exact Hb.
    + apply basename_after_slash. exact Hb.
Qed.

(** a path that ends in a name does not end in a slash, whatever comes
    before the name *)
Lemma no_final_slash_app (a b : string) :
  match b with EmptyString => true | _ => endswith_slash b end = false ->
  match (a ++ b)%string with EmptyString => true | _ => endswith_slash (a ++ b) end
  = false.
Proof.
  intros Hb. induction a as [| c a IH]; [exact Hb |].
  cbn [append endswith_slash].
  destruct (a ++ b)%string; [discriminate IH | exact IH].
Qed.

Lemma join_name_no_final_slash (a : string) :
  match os_path_join a "custom_nodes" with
  | EmptyString => true
  | _ => endswith_slash (os_path_join a "custom_nodes")
  end = false.
Proof.
  unfold os_path_join.
  change (startswith "/" "custom_nodes") with false. cbv iota.
  destruct (match a with EmptyString => true | _ => endswith_slash a end);
    apply no_final_slash_app; reflexivity.
Qed.

(** an entry of [custom_nodes] is joined to it with one slash *)
Lemma join_custom_nodes (a n : string) :
  str_in "/" n = false ->
  os_path_join (os_path_join a "custom_nodes") n =
  (os_path_join a "custom_nodes" ++ "/" ++ n)%string.
Proof.
  intros Hn. unfold os_path_join at 1. unfold startswith.
  assert (Hp : String.prefix "/" n = false).
  { destruct n as [| c n]; [reflexivity |].
    cbn [str_in] in Hn. apply orb_false_iff in Hn. exact (proj1 Hn). }
  rewrite Hp, join_name_no_final_slash. reflexivity.
Qed.

End Paths.

(** ** More of the script: what every run keeps *)

Section Keeping.

Context {World : Type} {host : Host World} {limits : Limits World}.

Variable I : proc World -> proc World -> Prop.
Variable say : bool.
Variable may_start : string -> string -> Prop.

Hypothesis I_refl : forall s, I s s.
Hypothesis I_trans : forall s1 s2 s3, I s1 s2 -> I s2 s3 -> I s1 s3.
Hypothesis I_chdir : forall d, keeps I (os_chdir d).
Hypothesis I_write : say = true -> forall x, keeps I (write x).
Hypothesis I_popen : forall c d, may_start c d -> keeps I (popen_communicate c d).

Lemma keeps_ret {A} (a : A) : keeps I (@ret World A a).
Proof. intros s. apply I_refl. Qed.

Lemma keeps_raise {A} (e : exn) : keeps I (@raise World A e).
Proof. intros s. apply I_refl. Qed.

Lemma keeps_bind {A B} (m : M World A) (k : A -> M World B) :
  keeps I m -> (forall a, keeps I (k a)) -> keeps I (bind m k).
Proof.
  intros Hm Hk s. rewrite bind_eq.
  pose proof (Hm s) as H1.
  destruct (m s) as [[a | e] s1]; cbn [snd] in *.
  - exact (I_trans _ _ _ H1 (Hk a s1)).
  - exact H1.
Qed.

Lemma keeps_ask {A} (q : World -> A) : keeps I (ask q).
Proof. intros s. apply I_refl. Qed.

Lemma keeps_listdir (path : string) : keeps I (os_listdir path).
Proof.
  intros s. unfold os_listdir. destruct (listdir path (world s)); apply I_refl.
Qed.

(** what follows a listing works on listed names *)
Lemma keeps_listdir_then {B} (path : string) (k : list string -> M World B) :
  (forall names, (forall name, In name names -> listed path name) -> keeps I (k names)) ->
  keeps I (bind (os_listdir path) k).
Proof.
  intros Hk s. rewrite bind_eq. unfold os_listdir.
  destruct (listdir path (world s)) as [names |] eqn:E.
  - apply Hk. intros name Hn. exists (world s), names. split; assumption.
  - apply I_refl.
Qed.

Lemma keeps_decode (b : list byte) : keeps I (decode b).
Proof. unfold decode. destruct (utf8_decode b); [apply keeps_ret | apply keeps_raise]. Qed.

Lemma keeps_print (x : string) : say = true -> keeps I (print x).
Proof. intros Hs. apply (I_write Hs). Qed.

(** a narration line: printed in verbose mode only *)
Lemma keeps_say (v b : bool) (x : string) :
  (v = true -> say = true) -> keeps I (when (v && b) (print x)).
Proof.
  intros Hv. destruct v; cbn [andb]; [| apply keeps_ret].
  destruct b; [apply keeps_print; auto | apply keeps_ret].
Qed.

Lemma keeps_say' (v : bool) (x : string) :
  (v = true -> say = true) -> keeps I (when v (print x)).
Proof. intros Hv. rewrite <- (andb_true_r v). apply keeps_say. exact Hv. Qed.

Lemma keeps_run_git_command (c d : string) :
  may_start c d -> keeps I (run_git_command c d).
Proof.
  intros Hc. unfold run_git_command.
  apply keeps_bind; [apply I_popen; exact Hc | intros p].
  apply keeps_bind; [apply keeps_decode | intros o].
  apply keeps_bind; [apply keeps_decode | intros e].
  apply keeps_ret.
Qed.

Ltac keep_going Hv G :=
  repeat first
    [ apply G; cbn; tauto
    | apply keeps_ret
    | apply keeps_say'; exact Hv
    | apply keeps_say; exact Hv
    | apply keeps_bind; [| intros ?]
    | match goal with
      | |- keeps _ (match ?r with _ => _ end) => destruct r
      end ].

Lemma keeps_sync (d : string) (v f : bool) :
  (v = true -> say = true) ->
  (forall c, In c sync_commands -> may_start c d) ->
  keeps I (git_pull_with_resolve d v f).
Proof.
  intros Hv Hc.
  assert (G : forall c, In c sync_commands -> keeps I (run_git_command c d))
    by (intros c Hin; apply keeps_run_git_command, Hc, Hin).
  unfold git_pull_with_resolve, check_stashes, check_uncommitted, try_pull.
  apply keeps_bind; [apply I_chdir | intros _].
  apply keeps_bind; [apply keeps_ask | intros g].
  destruct (negb g); keep_going Hv G.
Qed.

(** a forced run starts neither of the two rebase commands *)
Lemma keeps_forced_sync (d : string) (v : bool) :
  (v = true -> say = true) ->
  (forall c,
     In c ["git stash list"; "git stash apply"; "git diff --quiet HEAD";
           "git reset --hard HEAD"; "git pull --rebase"; "git fetch --all";
           "git reset --hard origin/$(git rev-parse --abbrev-ref HEAD)"] ->
     may_start c d) ->
  keeps I (git_pull_with_resolve d v true).
Proof.
  intros Hv Hc.
  assert (G : forall c,
            In c ["git stash list"; "git stash apply"; "git diff --quiet HEAD";
                  "git reset --hard HEAD"; "git pull --rebase"; "git fetch --all";
                  "git reset --hard origin/$(git rev-parse --abbrev-ref HEAD)"] ->
            keeps I (run_git_command c d))
    by (intros c Hin; apply keeps_run_git_command, Hc, Hin).
  unfold git_pull_with_resolve, check_stashes, check_uncommitted, try_pull.
  cbv beta iota.
  apply keeps_bind; [apply I_chdir | intros _].
  apply keeps_bind; [apply keeps_ask | intros g].
  destruct (negb g); keep_going Hv G.
Qed.

Lemma keeps_for_each {A} (xs : list A) (body : A -> list string -> M World (list string)) :
  (forall x, In x xs -> forall issues, keeps I (body x issues)) ->
  forall issues, keeps I (for_each xs body issues).
Proof.
  induction xs as [| x xs IH]; intros Hb issues; cbn [for_each].
  - apply keeps_ret.
  - apply keeps_bind; [apply Hb; left; reflexivity | intros i].
    apply IH. intros y Hy. apply Hb. right. exact Hy.
Qed.

(** the directories [update_project] lets [git_pull_with_resolve] work in *)
Lemma keeps_update_project (project_dir : string) (v f : bool) :
  (v = true -> say = true) ->
  (forall c, In c sync_commands ->
     may_start c (os_path_join project_dir "comfyui")) ->
  (forall c node_dir, In c sync_commands -> node_dir <> "__pycache__" ->
     listed (os_path_join (os_path_join project_dir "comfyui") "custom_nodes")
       node_dir ->
     may_start c
       (os_path_join (os_path_join (os_path_join project_dir "comfyui") "custom_nodes")
          node_dir)) ->
  keeps I (update_project project_dir v f).
Proof.
  intros Hv Hmain Hnode. unfold update_project.
  apply keeps_bind; [apply keeps_say'; exact Hv | intros _].
  apply keeps_bind; [apply keeps_ask | intros is_dir].
  apply keeps_bind.
  - destruct is_dir; [| apply keeps_ret].
    apply keeps_bind; [apply keeps_say'; exact Hv | intros _].
    apply keeps_bind; [apply keeps_sync; assumption | intros found].
    apply keeps_bind; [apply keeps_ask | intros is_dir'].
    destruct is_dir'; [| apply keeps_ret].
    apply keeps_bind; [apply keeps_say'; exact Hv | intros _].
    apply keeps_listdir_then. intros names Hnames.
    apply keeps_for_each. intros node_dir Hin issues.
    apply keeps_bind; [apply keeps_ask | intros d].
    destruct d; cbn [andb]; [| apply keeps_ret].
    destruct (String.eqb_spec node_dir "__pycache__") as [-> | Hne]; cbn [negb];
      [apply keeps_ret |].
    apply keeps_bind; [apply keeps_say'; exact Hv | intros _].
    apply keeps_bind; [| intros found'; apply keeps_ret].
    apply keeps_sync; [exact Hv |]. intros c Hc. apply Hnode; auto.
  - intros issues.
    apply keeps_bind; [| intros _; apply keeps_ret].
    destruct v; [| apply keeps_ret]. cbn [when].
    apply keeps_bind; [apply keeps_print; auto | intros _; apply keeps_print; auto].
Qed.

Lemma keeps_update_progress (current total : Z) (folder : string) :
  say = true -> keeps I (update_progress current total folder).
Proof.
  intros Hs. unfold update_progress. destruct (total =? 0)%Z; [apply keeps_raise |].
  repeat (apply keeps_bind; [apply (I_write Hs) | intros _]).
  apply (I_write Hs).
Qed.

Lemma keeps_project_dirs (projects_dir : string) (names : list string) :
  keeps I (project_dirs projects_dir names).
Proof.
  induction names as [| d rest IH]; cbn [project_dirs]; [apply keeps_ret |].
  apply keeps_bind; [apply keeps_ask | intros b].
  apply keeps_bind; [exact IH | intros more]. apply keeps_ret.
Qed.

Lemma keeps_print_items (all_issues : list string) :
  say = true -> keeps I (print_items all_issues).
Proof.
  intros Hs. induction all_issues as [| i rest IH]; cbn [print_items];
    [apply keeps_ret |].
  apply keeps_bind; [apply keeps_print; exact Hs | intros _; exact IH].
Qed.

(** the traversal of [main] from the state [s]: the directories it lets
    [git_pull_with_resolve] work in are those of the projects of [s] *)
Lemma collect_issues_moves (args : arguments) (s : proc World) :
  say = true ->
  (forall project c, main_project (world s) project -> In c sync_commands ->
     may_start c (os_path_join project "comfyui")) ->
  (forall project c node_dir, main_project (world s) project ->
     In c sync_commands -> node_dir <> "__pycache__" ->
     listed (os_path_join (os_path_join project "comfyui") "custom_nodes") node_dir ->
     may_start c
       (os_path_join (os_path_join (os_path_join project "comfyui") "custom_nodes")
          node_dir)) ->
  I s (snd (collect_issues args s)).
Proof.
  intros Hs Hmain Hnode.
  assert (U : forall project, main_project (world s) project ->
            keeps I (update_project project (verbose args) (force args))).
  { intros project Hp. apply keeps_update_project; [auto | |].
    - intros c Hc. apply Hmain; assumption.
    - intros c n Hc Hn Hl. apply Hnode; assumption. }
  unfold collect_issues. rewrite bind_eq. unfold os_getcwd at 1, ask at 1.
  cbv beta iota.
  destruct (str_in "/comfyui-launcher/server/projects/"
              (replace_char "\" "/" (getcwd (world s)))) eqn:Hin.
  - assert (Hp : main_project (world s) (getcwd (world s))).
    { unfold main_project. rewrite Hin. reflexivity. }
    rewrite bind_eq. unfold os_getcwd at 1, ask at 1. cbv beta iota.
    rewrite bind_eq.
    pose proof (keeps_update_progress 1 1 (os_path_basename (getcwd (world s))) Hs s)
      as H1.
    destruct (update_progress_world 1 1 (os_path_basename (getcwd (world s))) s)
      as [Hw _].
    destruct (update_progress 1 1 (os_path_basename (getcwd (world s))) s)
      as [[[] | e] s1]; cbn [snd] in *; [| exact H1].
    rewrite bind_eq. unfold os_getcwd at 1, ask at 1. cbv beta iota. rewrite Hw.
    apply (I_trans _ _ _ H1).
    apply keeps_bind; [apply U; exact Hp | intros found; apply keeps_ret].
  - rewrite bind_eq. unfold os_path_expanduser at 1, ask at 1. cbv beta iota.
    rewrite bind_eq. unfold os_listdir at 1.
    destruct (listdir (expanduser "~/comfyui-launcher/server/projects" (world s))
                (world s)) as [names |] eqn:El; [| apply I_refl].
    cbv beta iota. rewrite bind_eq, project_dirs_run. cbv beta iota.
    apply keeps_for_each. intros [i project] Hx all_issues.
    assert (Hp : main_project (world s) project).
    { unfold main_project. rewrite Hin. cbv zeta.
      apply in_combine_r in Hx. apply in_map_iff in Hx.
      destruct Hx as (d & <- & Hd).
      apply filter_In in Hd. destruct Hd as [Hd1 Hd2]. exists names, d. auto. }
    apply keeps_bind; [apply keeps_update_progress; exact Hs | intros _].
    apply keeps_bind; [apply U; exact Hp | intros found]. apply keeps_ret.
Qed.

Lemma main_moves (args : arguments) (s : proc World) :
  say = true ->
  (forall project c, main_project (world s) project -> In c sync_commands ->
     may_start c (os_path_join project "comfyui")) ->
  (forall project c node_dir, main_project (world s) project ->
     In c sync_commands -> node_dir <> "__pycache__" ->
     listed (os_path_join (os_path_join project "comfyui") "custom_nodes") node_dir ->
     may_start c
       (os_path_join (os_path_join (os_path_join project "comfyui") "custom_nodes")
          node_dir)) ->
  I s (snd (main args s)).
Proof.
  intros Hs Hmain Hnode. unfold main. rewrite bind_eq.
  pose proof (collect_issues_moves args s Hs Hmain Hnode) as H1.
  destruct (collect_issues args s) as [[all_issues | e] s1]; cbn [snd] in *;
    [| exact H1].
  apply (I_trans _ _ _ H1).
  apply keeps_bind; [apply keeps_print; exact Hs | intros _].
  destruct all_issues; [apply keeps_ret |].
  apply keeps_bind; [apply keeps_print; exact Hs | intros _].
  apply keeps_print_items; exact Hs.
Qed.

End Keeping.

Section Never.

Context {World : Type} {host : Host World} {limits : Limits World}.

Lemma started_refl (P : call World -> Prop) (s : proc World) : started P s s.
Proof. exists []. rewrite app_nil_r. split; [reflexivity | constructor]. Qed.

Lemma started_trans (P : call World -> Prop) (s1 s2 s3 : proc World) :
  started P s1 s2 -> started P s2 s3 -> started P s1 s3.
Proof.
  intros [n1 [E1 F1]] [n2 [E2 F2]]. exists (n1 ++ n2). split.
  - rewrite E2, E1, app_assoc. reflexivity.
  - apply Forall_app. split; assumption.
Qed.

Lemma started_chdir (P : call World -> Prop) (d : string) :
  keeps (started P) (os_chdir d).
Proof.
  intros s. unfold os_chdir.
  destruct (path_isdir d (world s) && enterable d (world s));
    cbn [snd]; exists []; cbn [calls]; rewrite app_nil_r;
    (split; [reflexivity | constructor]).
Qed.

Lemma started_write (P : call World -> Prop) (x : string) :
  keeps (started P) (write x).
Proof.
  intros s. unfold write. destruct (encodable x (world s));
    exists []; cbn; rewrite app_nil_r; (split; [reflexivity | constructor]).
Qed.

Lemma started_popen (P : call World -> Prop) (c d : string) :
  (forall w, P (Call c d w)) -> keeps (started P) (popen_communicate c d).
Proof.
  intros Hp s. exists [Call c d (world s)]. cbn. split; [reflexivity |].
  constructor; [apply Hp | constructor].
Qed.

(** X1.  Whatever happens in a call of [git_pull_with_resolve], normal
    return or exception, every child it starts runs in the directory it was
    given, with one of the ten command lines of [sync_commands]: nothing that
    pushes, commits, deletes a stash entry or removes a file is ever
    started. *)
Theorem sync_starts_only_its_commands (d : string) (v f : bool) (s : proc World) :
  exists new,
    calls (snd (git_pull_with_resolve d v f s)) = calls s ++ new /\
    Forall (fun k => cwd k = d /\ In (command k) sync_commands) new.
Proof.
  apply (keeps_sync (started (fun k => cwd k = d /\ In (command k) sync_commands))
           true (fun c d' => d' = d /\ In c sync_commands)).
  - apply started_refl.
  - apply started_trans.
  - apply started_chdir.
  - intros _. apply started_write.
  - intros c d' [-> Hc]. apply started_popen. intros w. split; [reflexivity | exact Hc].
  - reflexivity.
  - intros c Hc. split; [reflexivity | exact Hc].
Qed.

(** the directories of a project, given that listings are plain *)
Lemma in_project_node (project node_dir : string) :
  plain_listings ->
  node_dir <> "__pycache__" ->
  listed (os_path_join (os_path_join project "comfyui") "custom_nodes") node_dir ->
  in_project project
    (os_path_join (os_path_join (os_path_join project "comfyui") "custom_nodes")
       node_dir).
Proof.
  intros Hplain Hne (w & names & Hls & Hin).
  pose proof (Hplain _ _ _ Hls _ Hin) as Hn.
  right. exists node_dir. split; [exact Hn |]. split; [exact Hne |].
  apply join_custom_nodes. exact Hn.
Qed.

(** X2.  Whatever happens in a call of [update_project], every child it
    starts runs one of the ten command lines, either in the [comfyui]
    directory of the project or in a directory right under its
    [comfyui/custom_nodes]: the path of that directory followed by a slash
    and a name without a slash, other than [__pycache__].  This holds on
    every host whose listings give entry names, as [os.listdir] does. *)
Theorem update_project_stays_in_the_project
    (project_dir : string) (v f : bool) (s : proc World) :
  plain_listings ->
  exists new,
    calls (snd (update_project project_dir v f s)) = calls s ++ new /\
    Forall (fun k =>
              In (command k) sync_commands /\ in_project project_dir (cwd k))
           new.
Proof.
  intros Hplain.
  apply (keeps_update_project
           (started (fun k =>
              In (command k) sync_commands /\ in_project project_dir (cwd k)))
           true
           (fun c d' => In c sync_commands /\ in_project project_dir d')).
  - apply started_refl.
  - apply started_trans.
  - apply started_chdir.
  - intros _. apply started_write.
  - intros c d' H. apply started_popen. intros w. exact H.
  - reflexivity.
  - intros c Hc. split; [exact Hc | left; reflexivity].
  - intros c n Hc Hn Hl. split; [exact Hc |].
    apply in_project_node; assumption.
Qed.

(** X3.  Whatever happens in a run of [main], every child it starts runs
    one of the ten command lines of [git_pull_with_resolve], in the
    [comfyui] directory of a project or in a directory right under its
    [comfyui/custom_nodes] other than [__pycache__]; and the project is one
    of those [main] finds where it is started: the working directory, when
    its path has [/comfyui-launcher/server/projects/] in it, and otherwise
    an entry of the projects directory that is a directory.  This holds on
    every host whose listings give entry names. *)
Theorem main_starts_only_sync_commands (args : arguments) (s : proc World) :
  plain_listings ->
  exists new,
    calls (snd (main args s)) = calls s ++ new /\
    Forall (fun k =>
              In (command k) sync_commands /\
              exists project,
                main_project (world s) project /\ in_project project (cwd k))
           new.
Proof.
  intros Hplain.
  apply (main_moves
           (started (fun k =>
              In (command k) sync_commands /\
              exists project,
                main_project (world s) project /\ in_project project (cwd k)))
           true
           (fun c d' =>
              In c sync_commands /\
              exists project,
                main_project (world s) project /\ in_project project d')).
  - apply started_refl.
  - apply started_trans.
  - apply started_chdir.
  - intros _. apply started_write.
  - intros c d' H. apply started_popen. intros w. exact H.
  - reflexivity.
  - intros project c Hp Hc. split; [exact Hc |].
    exists project. split; [exact Hp | left; reflexivity].
  - intros project c n Hp Hc Hn Hl. split; [exact Hc |].
    exists project. split; [exact Hp |]. apply in_project_node; assumption.
Qed.

(** X19.  A forced run starts no rebase command: with [force = true],
    whatever happens in a call of [git_pull_with_resolve], the children it
    starts run one of seven command lines, and neither [git rebase --abort]
    nor the rebase that favors incoming changes is among them.  Only the
    conservative run aborts the rebase that a failed pull leaves behind. *)
Theorem forced_run_starts_no_rebase_command (d : string) (v : bool) (s : proc World) :
  exists new,
    calls (snd (git_pull_with_resolve d v true s)) = calls s ++ new /\
    Forall (fun k =>
              cwd k = d /\
              In (command k)
                ["git stash list"; "git stash apply"; "git diff --quiet HEAD";
                 "git reset --hard HEAD"; "git pull --rebase"; "git fetch --all";
                 "git reset --hard origin/$(git rev-parse --abbrev-ref HEAD)"] /\
              command k <> "git rebase --abort" /\
              command k <> "git rebase --strategy-option=theirs")
           new.
Proof.
  apply (keeps_forced_sync
           (started (fun k =>
              cwd k = d /\
              In (command k)
                ["git stash list"; "git stash apply"; "git diff --quiet HEAD";
                 "git reset --hard HEAD"; "git pull --rebase"; "git fetch --all";
                 "git reset --hard origin/$(git rev-parse --abbrev-ref HEAD)"] /\
              command k <> "git rebase --abort" /\
              command k <> "git rebase --strategy-option=theirs"))
           true
           (fun c d' =>
              d' = d /\
              In c ["git stash list"; "git stash apply"; "git diff --quiet HEAD";
                    "git reset --hard HEAD"; "git pull --rebase"; "git fetch --all";
                    "git reset --hard origin/$(git rev-parse --abbrev-ref HEAD)"])).
  - apply started_refl.
  - apply started_trans.
  - apply started_chdir.
  - intros _. apply started_write.
  - intros c d' [-> Hc]. apply started_popen. intros w.
    split; [reflexivity |]. split; [exact Hc |].
    cbn [command]. cbn [In] in Hc.
    split; intros ->;
      repeat (destruct Hc as [Hc | Hc]; [discriminate Hc |]); exact Hc.
  - reflexivity.
  - intros c Hc. split; [reflexivity | exact Hc].
Qed.

Lemma same_console_chdir (d : string) : keeps same_console (os_chdir d).
Proof.
  intros s. unfold os_chdir, same_console.
  destruct (path_isdir d (world s) && enterable d (world s)); reflexivity.
Qed.

(** X4.  Without [--verbose] a call of [git_pull_with_resolve] writes
    nothing to standard output, whatever happens in it; nor does a call of
    [update_project]. *)
Theorem quiet_mode_is_silent (d : string) (f : bool) (s : proc World) :
  console (snd (git_pull_with_resolve d false f s)) = console s /\
  console (snd (update_project d false f s)) = console s.
Proof.
  assert (T : forall s1 s2 s3 : proc World,
            same_console s1 s2 -> same_console s2 s3 -> same_console s1 s3)
    by (unfold same_console; intros s1 s2 s3 H1 H2; rewrite H2; exact H1).
  assert (R : forall s1 : proc World, same_console s1 s1) by reflexivity.
  assert (W : false = true -> forall x : string, keeps same_console (@write World limits x))
    by discriminate.
  assert (P : forall c d' : string, True -> keeps same_console (@popen_communicate World host c d'))
    by (intros c d' _ s'; reflexivity).
  split.
  - apply (keeps_sync same_console false (fun _ _ => True) R T
             same_console_chdir W P); [discriminate | auto].
  - apply (keeps_update_project same_console false (fun _ _ => True) R T
             same_console_chdir W P); [discriminate | auto | auto].
Qed.

End Never.

(** ** More of the script: runs side by side *)

Section Relating.

Context {World : Type} {host : Host World} {limits : Limits World}.

Variable strict : bool.
Variable R : proc World -> proc World -> Prop.
Hypothesis R_ok : stepwise strict R.
Hypothesis R_enc : strict = false -> forall x w, encodable x w = true.

Lemma R_world (s1 s2 : proc World) : R s1 s2 -> world s1 = world s2.
Proof. apply (proj1 R_ok). Qed.

Lemma R_after (s1 s2 : proc World) (w : World) ks xs ys c1 k1 c2 k2 :
  (strict = true -> xs = ys) ->
  R s1 s2 ->
  c1 = console s1 ++ xs -> k1 = calls s1 ++ ks ->
  c2 = console s2 ++ ys -> k2 = calls s2 ++ ks ->
  R (Proc w c1 k1) (Proc w c2 k2).
Proof. intros Hxy Hr -> -> -> ->. apply (proj2 R_ok); assumption. Qed.

Lemma rel_ret {A} (a : A) : rel R (ret a) (ret a).
Proof. intros s1 s2 Hr. split; [reflexivity | exact Hr]. Qed.

Lemma rel_raise {A} (e : exn) : rel R (@raise World A e) (raise e).
Proof. intros s1 s2 Hr. split; [reflexivity | exact Hr]. Qed.

Lemma rel_bind {A B} (m1 m2 : M World A) (k1 k2 : A -> M World B) :
  rel R m1 m2 -> (forall a, rel R (k1 a) (k2 a)) -> rel R (bind m1 k1) (bind m2 k2).
Proof.
  intros Hm Hk s1 s2 Hr. rewrite !bind_eq.
  destruct (Hm s1 s2 Hr) as [E1 E2].
  destruct (m1 s1) as [[a1 | e1] t1], (m2 s2) as [[a2 | e2] t2];
    cbn [fst snd] in *; try discriminate.
  - injection E1 as ->. apply Hk. exact E2.
  - injection E1 as ->. split; [reflexivity | exact E2].
Qed.

Lemma rel_ask {A} (q : World -> A) : rel R (ask q) (ask q).
Proof.
  intros s1 s2 Hr. unfold ask. cbn [fst snd]. rewrite (R_world _ _ Hr).
  split; [reflexivity | exact Hr].
Qed.

Lemma rel_chdir (d : string) : rel R (os_chdir d) (os_chdir d).
Proof.
  intros s1 s2 Hr. unfold os_chdir. rewrite (R_world _ _ Hr).
  destruct (path_isdir d (world s2) && enterable d (world s2)); cbn [fst snd].
  - split; [reflexivity |].
    apply (R_after s1 s2 _ [] [] []); auto; rewrite app_nil_r; reflexivity.
  - split; [reflexivity | exact Hr].
Qed.


Lemma rel_popen (c d : string) : rel R (popen_communicate c d) (popen_communicate c d).
Proof.
  intros s1 s2 Hr. unfold popen_communicate. cbn [fst snd].
  rewrite (R_world _ _ Hr). split; [reflexivity |].
  apply (R_after s1 s2 _ [Call c d (world s2)] [] []); auto;
    rewrite ?app_nil_r; reflexivity.
Qed.

Lemma rel_decode (b : list byte) : rel R (decode b) (decode b).
Proof. unfold decode. destruct (utf8_decode b); [apply rel_ret | apply rel_raise]. Qed.

Lemma rel_run_git_command (c d : string) :
  rel R (run_git_command c d) (run_git_command c d).
Proof.
  unfold run_git_command.
  apply rel_bind; [apply rel_popen | intros p].
  apply rel_bind; [apply rel_decode | intros o].
  apply rel_bind; [apply rel_decode | intros e].
  apply rel_ret.
Qed.

Lemma rel_write (x : string) : rel R (write x) (write x).
Proof.
  intros s1 s2 Hr. unfold write. rewrite (R_world _ _ Hr).
  destruct (encodable x (world s2)); cbn [fst snd].
  - split; [reflexivity |].
    apply (R_after s1 s2 _ [] [x] [x]); auto; rewrite ?app_nil_r; reflexivity.
  - split; [reflexivity | exact Hr].
Qed.

(** what narration does when the stream takes every string *)
Lemma say_run (c : bool) (x : string) (s : proc World) :
  (forall y w, encodable y w = true) ->
  when c (print x) s =
  (Returns tt,
   Proc (world s) (console s ++ (if c then [(x ++ nl)%string] else [])) (calls s)).
Proof.
  intros He. destruct c, s; unfold when, print, write, ret; cbn [world console calls].
  - rewrite He. reflexivity.
  - rewrite app_nil_r. reflexivity.
Qed.

(** lines that only one of the two runs may print *)
Lemma rel_lines (v1 v2 : bool) (xs : list string) (s1 s2 : proc World) :
  (strict = true -> v1 = v2) ->
  R s1 s2 ->
  R (Proc (world s1) (console s1 ++ (if v1 then xs else [])) (calls s1))
    (Proc (world s2) (console s2 ++ (if v2 then xs else [])) (calls s2)).
Proof.
  intros Hv Hr. rewrite (R_world _ _ Hr).
  apply (R_after s1 s2 _ [] (if v1 then xs else []) (if v2 then xs else []));
    auto; rewrite ?app_nil_r; try reflexivity.
  intros Hs. rewrite (Hv Hs). reflexivity.
Qed.

Lemma rel_say (v1 v2 b : bool) (x : string) :
  (strict = true -> v1 = v2) ->
  rel R (when (v1 && b) (print x)) (when (v2 && b) (print x)).
Proof.
  intros Hv. destruct (bool_dec strict true) as [Es | Es].
  - rewrite (Hv Es). destruct (v2 && b); [apply rel_write | apply rel_ret].
  - apply not_true_is_false in Es.
    intros s1 s2 Hr. rewrite !(say_run _ _ _ (R_enc Es)). cbn [fst snd].
    split; [reflexivity |].
    destruct b.
    + rewrite !andb_true_r. apply rel_lines; assumption.
    + rewrite !andb_false_r, !app_nil_r. destruct s1, s2. exact Hr.
Qed.

Lemma rel_say' (v1 v2 : bool) (x : string) :
  (strict = true -> v1 = v2) ->
  rel R (when v1 (print x)) (when v2 (print x)).
Proof.
  intros Hv. rewrite <- (andb_true_r v1), <- (andb_true_r v2).
  apply rel_say. exact Hv.
Qed.


Ltac relate Hv :=
  repeat first
    [ apply rel_run_git_command
    | apply rel_ret
    | apply rel_say'; exact Hv
    | apply rel_say; exact Hv
    | apply rel_bind; [| intros ?]
    | match goal with
      | |- rel _ (match ?r with _ => _ end) (match ?r with _ => _ end) => destruct r
      end ].

Lemma rel_sync (d : string) (v1 v2 f : bool) :
  (strict = true -> v1 = v2) ->
  rel R (git_pull_with_resolve d v1 f) (git_pull_with_resolve d v2 f).
Proof.
  intros Hv.
  unfold git_pull_with_resolve, check_stashes, check_uncommitted, try_pull.
  apply rel_bind; [apply rel_chdir | intros _].
  apply rel_bind; [apply rel_ask | intros g].
  destruct (negb g); relate Hv.
Qed.








End Relating.

Section Comparing.

Context {World : Type} {host : Host World} {limits : Limits World}.


Lemma shifted_stepwise (c : list string) (k : list (call World)) :
  stepwise true (shifted c k).
Proof.
  split.
  - intros s1 s2 [Hw _]. exact Hw.
  - intros s1 s2 w ks xs ys Hxy (_ & Hc & Hk). rewrite (Hxy eq_refl).
    repeat split; cbn; [rewrite Hc | rewrite Hk]; rewrite app_assoc; reflexivity.
Qed.


End Comparing.

(** ** More of the script: exceptions *)

Section Raising.

Context {World : Type} {host : Host World} {limits : Limits World}.

Variable P : exn -> Prop.

Lemma raises_only_ret {A} (a : A) : raises_only P (@ret World A a).
Proof. intros s e s' H. discriminate H. Qed.

Lemma raises_only_bind {A B} (m : M World A) (k : A -> M World B) :
  raises_only P m -> (forall a, raises_only P (k a)) -> raises_only P (bind m k).
Proof.
  intros Hm Hk s e s'. rewrite bind_eq.
  destruct (m s) as [[a | e1] s1] eqn:E.
  - apply Hk.
  - intros H. injection H as <- _. exact (Hm _ _ _ E).
Qed.

Lemma raises_only_ask {A} (q : World -> A) : raises_only P (ask q).
Proof. intros s e s' H. discriminate H. Qed.

Lemma raises_only_write (x : string) :
  P UnicodeEncodeError -> raises_only P (write x).
Proof.
  intros Hp s e s'. unfold write. destruct (encodable x (world s)).
  - discriminate.
  - intros H. injection H as <- _. exact Hp.
Qed.

Lemma raises_only_say (v : bool) (x : string) :
  (v = true -> P UnicodeEncodeError) -> raises_only P (when v (print x)).
Proof.
  intros Hp. destruct v; [| apply raises_only_ret].
  cbn [when]. apply raises_only_write. apply Hp. reflexivity.
Qed.

Lemma raises_only_chdir (d : string) : P (OSError d) -> raises_only P (os_chdir d).
Proof.
  intros Hp s e s'. unfold os_chdir.
  destruct (path_isdir d (world s) && enterable d (world s)).
  - discriminate.
  - intros H. injection H as <- _. exact Hp.
Qed.

Lemma raises_only_listdir (path : string) :
  P (OSError path) -> raises_only P (os_listdir path).
Proof.
  intros Hp s e s'. unfold os_listdir. destruct (listdir path (world s)).
  - discriminate.
  - intros H. injection H as <- _. exact Hp.
Qed.

Lemma raises_only_run_git_command (c d : string) :
  P UnicodeDecodeError -> raises_only P (run_git_command c d).
Proof.
  intros Hp s e s'.
  unfold run_git_command, popen_communicate, decode, bind, ret, raise.
  destruct (utf8_decode (stdout_bytes _)); [| intros H; injection H as <- _; exact Hp].
  destruct (utf8_decode (stderr_bytes _)); [| intros H; injection H as <- _; exact Hp].
  discriminate.
Qed.

Ltac cannot G Hv :=
  repeat first
    [ apply G
    | apply raises_only_ret
    | apply raises_only_say; exact Hv
    | apply raises_only_ask
    | apply raises_only_bind; [| intros ?]
    | match goal with
      | |- raises_only _ (match ?r with _ => _ end) => destruct r
      end ].

(** what follows [os.chdir] in [git_pull_with_resolve] *)
Lemma raises_only_sync_blocks (d : string) (v f : bool) (issues : list string) :
  P UnicodeDecodeError -> (v = true -> P UnicodeEncodeError) ->
  raises_only P (check_stashes d v issues) /\
  raises_only P (check_uncommitted d v f) /\
  raises_only P (try_pull d v f issues).
Proof.
  intros Hp Hv.
  assert (G : forall c, raises_only P (run_git_command c d))
    by (intros c; apply raises_only_run_git_command, Hp).
  unfold check_stashes, check_uncommitted, try_pull.
  repeat split; cannot G Hv.
Qed.

Lemma raises_only_say_and (v b : bool) (x : string) :
  (v = true -> P UnicodeEncodeError) -> raises_only P (when (v && b) (print x)).
Proof.
  intros Hv. apply raises_only_say. intros Hc. apply Hv.
  apply andb_true_iff in Hc. apply Hc.
Qed.

(** [git_pull_with_resolve] once [os.chdir] has returned *)
Lemma raises_only_in_directory (d : string) (v f : bool) :
  P UnicodeDecodeError -> (v = true -> P UnicodeEncodeError) ->
  raises_only P
    (has_git <- os_path_exists (os_path_join d ".git") ;;
     if negb has_git then
       when v
         (print (nl ++ YELLOW ++ "Skipping " ++ d ++ " (not a git repository)"
                 ++ DEFAULT)) ;;
       ret []
     else
       issues <- check_stashes d v [] ;;
       check_uncommitted d v f ;;
       issues <- try_pull d v f issues ;;
       when (v && match issues with [] => true | _ => false end)
         (print (GREEN ++ "Update successful for " ++ d ++ DEFAULT)) ;;
       ret issues).
Proof.
  intros Hp Hv.
  apply raises_only_bind; [apply raises_only_ask | intros g].
  destruct (negb g).
  - apply raises_only_bind;
      [apply raises_only_say; exact Hv | intros _; apply raises_only_ret].
  - apply raises_only_bind;
      [apply (raises_only_sync_blocks d v f []); assumption | intros i1].
    apply raises_only_bind;
      [apply (raises_only_sync_blocks d v f []); assumption | intros _].
    apply raises_only_bind;
      [apply (raises_only_sync_blocks d v f i1); assumption | intros i2].
    apply raises_only_bind;
      [apply raises_only_say_and; exact Hv | intros _; apply raises_only_ret].
Qed.

Lemma raises_only_sync (d : string) (v f : bool) :
  P (OSError d) -> P UnicodeDecodeError -> (v = true -> P UnicodeEncodeError) ->
  raises_only P (git_pull_with_resolve d v f).
Proof.
  intros Ho Hp Hv. unfold git_pull_with_resolve.
  apply raises_only_bind; [apply raises_only_chdir, Ho | intros _].
  apply raises_only_in_directory; assumption.
Qed.

Lemma raises_only_for_each {A} (xs : list A)
    (body : A -> list string -> M World (list string)) :
  (forall x, In x xs -> forall issues, raises_only P (body x issues)) ->
  forall issues, raises_only P (for_each xs body issues).
Proof.
  induction xs as [| x xs IH]; intros Hb issues; cbn [for_each].
  - apply raises_only_ret.
  - apply raises_only_bind; [apply Hb; left; reflexivity | intros i].
    apply IH. intros y Hy. apply Hb. right. exact Hy.
Qed.

Lemma raises_only_update_project (project_dir : string) (v f : bool) :
  (forall path, P (OSError path)) -> P UnicodeDecodeError ->
  (v = true -> P UnicodeEncodeError) ->
  raises_only P (update_project project_dir v f).
Proof.
  intros Ho Hp Hv. unfold update_project.
  apply raises_only_bind; [apply raises_only_say; exact Hv | intros _].
  apply raises_only_bind; [apply raises_only_ask | intros is_dir].
  apply raises_only_bind.
  - destruct is_dir; [| apply raises_only_ret].
    apply raises_only_bind; [apply raises_only_say; exact Hv | intros _].
    apply raises_only_bind; [apply raises_only_sync; auto | intros found].
    apply raises_only_bind; [apply raises_only_ask | intros is_dir'].
    destruct is_dir'; [| apply raises_only_ret].
    apply raises_only_bind; [apply raises_only_say; exact Hv | intros _].
    apply raises_only_bind; [apply raises_only_listdir; auto | intros names].
    apply raises_only_for_each. intros node_dir _ issues.
    apply raises_only_bind; [apply raises_only_ask | intros d].
    destruct (d && negb (node_dir =? "__pycache__")%string); [| apply raises_only_ret].
    apply raises_only_bind; [apply raises_only_say; exact Hv | intros _].
    apply raises_only_bind;
      [apply raises_only_sync; auto | intros found'; apply raises_only_ret].
  - intros issues.
    apply raises_only_bind; [| intros _; apply raises_only_ret].
    destruct v; [| apply raises_only_ret]. cbn [when].
    apply raises_only_bind;
      [apply raises_only_write | intros _; apply raises_only_write]; auto.
Qed.

Lemma raises_only_update_progress (current total : Z) (folder : string) :
  (total = 0%Z -> P ZeroDivisionError) -> P UnicodeEncodeError ->
  raises_only P (update_progress current total folder).
Proof.
  intros Hz He. unfold update_progress. destruct (Z.eqb_spec total 0) as [E | _].
  - intros s e s' H. injection H as <- _. exact (Hz E).
  - repeat (apply raises_only_bind; [apply raises_only_write, He | intros _]).
    apply raises_only_write, He.
Qed.

Lemma raises_only_project_dirs (projects_dir : string) (names : list string) :
  raises_only P (project_dirs projects_dir names).
Proof.
  induction names as [| d rest IH]; cbn [project_dirs]; [apply raises_only_ret |].
  apply raises_only_bind; [apply raises_only_ask | intros b].
  apply raises_only_bind; [exact IH | intros more]. apply raises_only_ret.
Qed.

End Raising.

Section Failing.

Context {World : Type} {host : Host World} {limits : Limits World}.

(** X7.  [run_git_command] raises exactly when one of the two output
    streams of the command is not well-formed UTF-8, and then the command
    has run all the same: in either case the world is the one the command
    left and the child is on record, and nothing was printed. *)
Theorem run_git_command_decodes_after_the_fact (c d : string) (s : proc World) :
  snd (run_git_command c d s) =
    Proc (after c d (world s)) (console s) (calls s ++ [Call c d (world s)]) /\
  (readable c d (world s) = true ->
   fst (run_git_command c d s) =
     Returns (exit_status c d (world s), printed c d (world s),
              complained c d (world s))) /\
  (readable c d (world s) = false ->
   fst (run_git_command c d s) = Raises UnicodeDecodeError).
Proof.
  unfold run_git_command, popen_communicate, decode, bind, ret, raise,
    readable, exit_status, printed, complained, after.
  destruct (utf8_decode (stdout_bytes (fst (spawn c d (world s)))));
    destruct (utf8_decode (stderr_bytes (fst (spawn c d (world s)))));
    cbn; repeat split; intros; try reflexivity; discriminate.
Qed.

(** X8.  On a path that is not a directory, [git_pull_with_resolve] raises
    [OSError] for that path at once: nothing is printed, no child is
    started, the world is untouched. *)
Theorem sync_raises_when_the_directory_is_missing
    (d : string) (v f : bool) (s : proc World) :
  path_isdir d (world s) = false ->
  git_pull_with_resolve d v f s = (Raises (OSError d), s).
Proof.
  intros Hd. unfold git_pull_with_resolve. rewrite bind_eq.
  unfold os_chdir. rewrite Hd. reflexivity.
Qed.


Lemma enumerate1_nonempty {A} (xs : list A) (i : Z) (x : A) :
  In (i, x) (enumerate1 xs) -> Z.of_nat (List.length xs) <> 0%Z.
Proof.
  unfold enumerate1. intros H. apply in_combine_r in H.
  destruct xs; [destruct H | cbn; lia].
Qed.

Lemma print_items_raises_only (P : exn -> Prop) (all_issues : list string) :
  P UnicodeEncodeError -> raises_only P (print_items all_issues).
Proof.
  intros He. induction all_issues as [| i rest IH]; cbn [print_items].
  - apply raises_only_ret.
  - apply raises_only_bind; [apply raises_only_write, He | intros _; exact IH].
Qed.

(** X10.  [main] never fails with a division by zero, although
    [update_progress] divides by the number of projects: with no project
    the loop that calls it has nothing to go through, and inside a project
    the total is 1.  Whatever [main] raises, on any console and whatever
    directories the process may enter, it is not [ZeroDivisionError]. *)
Theorem main_never_divides_by_zero
    (args : arguments) (s s' : proc World) (e : exn) :
  main args s = (Raises e, s') ->
  e <> ZeroDivisionError.
Proof.
  set (P := fun x : exn => x <> ZeroDivisionError).
  assert (Ho : forall path, P (OSError path)) by (intros p; discriminate).
  assert (Hu : P UnicodeDecodeError) by discriminate.
  assert (He : P UnicodeEncodeError) by discriminate.
  assert (K : raises_only P (main args)).
  { unfold main.
    apply raises_only_bind.
    - unfold collect_issues.
      apply raises_only_bind; [apply raises_only_ask | intros here].
      destruct (str_in _ _).
      + apply raises_only_bind; [apply raises_only_ask | intros here1].
        apply raises_only_bind;
          [apply raises_only_update_progress; [discriminate | exact He] | intros _].
        apply raises_only_bind; [apply raises_only_ask | intros here2].
        apply raises_only_bind;
          [apply raises_only_update_project; auto | intros found].
        apply raises_only_ret.
      + apply raises_only_bind; [apply raises_only_ask | intros projects_dir].
        apply raises_only_bind; [apply raises_only_listdir, Ho | intros names].
        apply raises_only_bind; [apply raises_only_project_dirs | intros projects].
        apply raises_only_for_each. intros [i project] Hin all_issues.
        apply raises_only_bind.
        * apply raises_only_update_progress; [| exact He]. intros Hz.
          exfalso. exact (enumerate1_nonempty _ _ _ Hin Hz).
        * intros _.
          apply raises_only_bind;
            [apply raises_only_update_project; auto | intros found].
          apply raises_only_ret.
    - intros all_issues.
      apply raises_only_bind; [apply raises_only_write, He | intros _].
      destruct all_issues; [apply raises_only_ret |].
      apply raises_only_bind; [apply raises_only_write, He | intros _].
      apply print_items_raises_only, He. }
  intros H. exact (K _ _ _ H).
Qed.

End Failing.

(** ** More of the script: the progress line *)

(** Here and in the next section the console takes every line. *)

Section Progress.

Context {World : Type}.

Lemma length_append (a b : string) :
  String.length (a ++ b) = String.length a + String.length b.
Proof. induction a as [| c a IH]; cbn; [reflexivity | rewrite IH; reflexivity]. Qed.

Lemma length_repeat_char (c : ascii) (n : nat) :
  String.length (repeat_str (String c EmptyString) n) = n.
Proof. induction n as [| n IH]; cbn; [reflexivity | rewrite IH; reflexivity]. Qed.

Lemma length_ljust (w : nat) (s : string) :
  String.length (ljust w s) = Nat.max w (String.length s).
Proof. unfold ljust. rewrite length_append, length_repeat_char. lia. Qed.

Lemma fmt_3d_width (p : Z) : (0 <= p <= 100)%Z -> String.length (fmt_3d p) = 3.
Proof.
  intros Hp.
  assert (H : forallb (fun n => (String.length (fmt_3d (Z.of_nat n)) =? 3)%nat)
                (seq 0 101) = true) by (vm_compute; reflexivity).
  rewrite forallb_forall in H.
  specialize (H (Z.to_nat p)). rewrite Z2Nat.id in H by lia.
  apply Nat.eqb_eq, H, in_seq. lia.
Qed.

Lemma progress_bounds (current total : Z) :
  (0 <= current <= total)%Z -> (0 < total)%Z ->
  (0 <= Z.quot (current * 100) total <= 100)%Z /\
  (0 <= Z.quot (50 * current) total <= 50)%Z.
Proof.
  intros Hc Ht.
  rewrite !Z.quot_div_nonneg by lia. split; split.
  - apply Z.div_pos; lia.
  - apply Z.div_le_upper_bound; lia.
  - apply Z.div_pos; lia.
  - apply Z.div_le_upper_bound; lia.
Qed.

(** X11.  For [0 <= current <= total] and [total > 0], [update_progress]
    returns normally after six writes that start with a carriage return; the
    bar between the brackets is 50 characters wide, the percentage takes 3,
    and the whole line is 68 characters plus the width of the name, which is
    padded to 40: lines for names of up to 40 characters all have the same
    width, so that a line overwrites the one before it. *)
Theorem update_progress_draws_a_fixed_width_line
    (current total : Z) (folder : string) (s : proc World) :
  (0 <= current <= total)%Z -> (0 < total)%Z ->
  exists name bar_done bar_todo percent,
    update_progress current total folder s =
    (Returns tt,
     Proc (world s)
       (console s ++ [cr; name; "["; bar_done; bar_todo; percent])
       (calls s)) /\
    String.length name = 10 + Nat.max 40 (String.length folder) /\
    String.length bar_done + String.length bar_todo = 50 /\
    String.length percent = 6 /\
    String.length (cr ++ name ++ "[" ++ bar_done ++ bar_todo ++ percent)
      = 68 + Nat.max 40 (String.length folder).
Proof.
  intros Hc Ht.
  destruct (progress_bounds current total Hc Ht) as [Hp Hb].
  exists ("Updating: " ++ ljust 40 folder)%string,
         (str_mul "=" (Z.quot (50 * current) total)),
         (str_mul " " (50 - Z.quot (50 * current) total)),
         ("] " ++ fmt_3d (Z.quot (current * 100) total) ++ "%")%string.
  assert (E1 : String.length (str_mul "=" (Z.quot (50 * current) total))
               + String.length (str_mul " " (50 - Z.quot (50 * current) total)) = 50).
  { unfold str_mul. rewrite !length_repeat_char. lia. }
  assert (E2 : String.length ("] " ++ fmt_3d (Z.quot (current * 100) total) ++ "%")
               = 6).
  { rewrite !length_append, (fmt_3d_width _ Hp). reflexivity. }
  assert (E3 : String.length ("Updating: " ++ ljust 40 folder)
               = 10 + Nat.max 40 (String.length folder)).
  { rewrite length_append, length_ljust. reflexivity. }
  split; [| split; [exact E3 | split; [exact E1 | split; [exact E2 |]]]].
  - unfold update_progress.
    destruct (Z.eqb_spec total 0) as [E | _]; [lia |].
    unfold bind, write. cbn [encodable unlimited world console calls].
    rewrite <- !app_assoc. reflexivity.
  - rewrite !length_append, length_ljust, (fmt_3d_width _ Hp).
    unfold str_mul. rewrite !length_repeat_char.
    cbn [String.length cr chr]. lia.
Qed.

(** X12.  At the last project ([current = total]) the bar is full: 50
    equal signs, no padding, and the text [100%]. *)
Theorem update_progress_ends_with_a_full_bar
    (total : Z) (folder : string) (s : proc World) :
  (0 < total)%Z ->
  update_progress total total folder s =
  (Returns tt,
   Proc (world s)
     (console s ++ [cr; ("Updating: " ++ ljust 40 folder)%string; "[";
                    repeat_str "=" 50; ""; "] 100%"])
     (calls s)).
Proof.
  intros Ht. unfold update_progress.
  destruct (Z.eqb_spec total 0) as [E | _]; [lia |].
  assert (Ep : Z.quot (total * 100) total = 100%Z).
  { rewrite Z.mul_comm. apply Z.quot_mul. lia. }
  assert (Eb : Z.quot (50 * total) total = 50%Z) by (apply Z.quot_mul; lia).
  rewrite Ep, Eb. unfold bind, write. cbn [encodable unlimited world console calls].
  rewrite <- !app_assoc. reflexivity.
Qed.

End Progress.


(** ** More of the script: projects and the top level *)

Section Projects.

Context {World : Type} {host : Host World}.

(** X14.  A project directory without a [comfyui] directory in it is passed
    over: [update_project] returns the empty list of issues, starts no child,
    leaves the world alone, and prints nothing but the two framing lines and
    the rule of verbose mode. *)
Theorem update_project_without_comfyui
    (project_dir : string) (v f : bool) (w : World) :
  path_isdir (os_path_join project_dir "comfyui") w = false ->
  run (update_project project_dir v f) w =
  (Returns [],
   Proc w
     (if v
      then [((nl ++ GREEN ++ "Updating project: " ++ os_path_basename project_dir
              ++ DEFAULT) ++ nl)%string;
            ((GREEN ++ "Finished updating " ++ os_path_basename project_dir
              ++ DEFAULT) ++ nl)%string;
            ("----------------------------------------" ++ nl)%string]
      else [])
     []).
Proof.
  intros Hd. unfold run, update_project.
  rewrite bind_eq, when_print. cbv beta iota.
  rewrite bind_eq. unfold os_path_isdir, ask. cbn [world start console calls].
  rewrite Hd. cbv beta iota.
  rewrite bind_eq. unfold ret at 1. cbv beta iota.
  destruct v; unfold when, print, write, bind, ret; cbn [world console calls app];
    reflexivity.
Qed.

Lemma project_dirs_none (projects_dir : string) (names : list string) (s : proc World) :
  (forall d, In d names -> path_isdir (os_path_join projects_dir d) (world s) = false) ->
  project_dirs projects_dir names s = (Returns [], s).
Proof.
  induction names as [| d rest IH]; intros H; cbn [project_dirs]; [reflexivity |].
  rewrite bind_eq. unfold os_path_isdir, ask.
  rewrite (H d (or_introl eq_refl)). cbv beta iota.
  rewrite bind_eq, IH by (intros x Hx; apply H; right; exact Hx).
  reflexivity.
Qed.

(** X13.  The list of projects that [main] builds holds the path of every
    entry of the projects directory that is a directory, in the order of the
    listing, and nothing else; building it changes nothing.  When no entry
    name has a slash in it, the names [main] shows in the progress lines are
    these entry names. *)
Theorem projects_are_the_listed_directories
    (projects_dir : string) (names : list string) (s : proc World) :
  let dirs :=
    filter (fun d => path_isdir (os_path_join projects_dir d) (world s)) names in
  project_dirs projects_dir names s =
    (Returns (map (os_path_join projects_dir) dirs), s) /\
  ((forall d, In d names -> str_in "/" d = false) ->
   map os_path_basename (map (os_path_join projects_dir) dirs) = dirs).
Proof.
  cbv zeta. split.
  - induction names as [| d rest IH]; cbn [project_dirs filter map]; [reflexivity |].
    rewrite bind_eq. unfold os_path_isdir at 1, ask at 1. cbv beta iota.
    rewrite bind_eq, IH. cbv beta iota. unfold ret.
    destruct (path_isdir (os_path_join projects_dir d) (world s)); reflexivity.
  - intros Hn. rewrite map_map.
    induction names as [| d rest IH]; cbn [filter map]; [reflexivity |].
    assert (Hr : forall x, In x rest -> str_in "/" x = false)
      by (intros x Hx; apply Hn; right; exact Hx).
    destruct (path_isdir (os_path_join projects_dir d) (world s)); cbn [map].
    + rewrite (basename_of_join _ _ (Hn d (or_introl eq_refl))), (IH Hr).
      reflexivity.
    + exact (IH Hr).
Qed.

(** X15.  Started outside the projects tree on a machine where the projects
    directory cannot be listed, [main] raises the [OSError] of that
    directory before anything is printed or started: no banner follows. *)
Theorem main_raises_without_projects_directory (args : arguments) (w : World) :
  str_in "/comfyui-launcher/server/projects/" (replace_char "\" "/" (getcwd w)) = false ->
  listdir (expanduser "~/comfyui-launcher/server/projects" w) w = None ->
  run (main args) w =
  (Raises (OSError (expanduser "~/comfyui-launcher/server/projects" w)), start w).
Proof.
  intros Hout Hls. unfold run, main, collect_issues.
  rewrite !bind_eq. unfold os_getcwd, ask at 1. cbn [start world].
  rewrite Hout. rewrite !bind_eq.
  unfold os_path_expanduser, ask at 1. cbn [start world].
  rewrite bind_eq. unfold os_listdir at 1. cbn [start world].
  rewrite Hls. reflexivity.
Qed.

(** X16.  Started outside the projects tree with a projects directory that
    holds no directory (empty, or plain files only), [main] starts no child,
    draws no progress line and prints the success banner alone. *)
Theorem main_with_no_project_prints_the_banner_alone
    (args : arguments) (w : World) (names : list string) :
  let projects_dir := expanduser "~/comfyui-launcher/server/projects" w in
  str_in "/comfyui-launcher/server/projects/" (replace_char "\" "/" (getcwd w)) = false ->
  listdir projects_dir w = Some names ->
  (forall d, In d names -> path_isdir (os_path_join projects_dir d) w = false) ->
  run (main args) w =
  (Returns tt,
   Proc w
     [((nl ++ GREEN ++ "All projects updated successfully!" ++ DEFAULT) ++ nl)%string]
     []).
Proof.
  cbv zeta. intros Hout Hls Hnone. unfold run, main, collect_issues.
  rewrite !bind_eq. unfold os_getcwd, ask at 1. cbn [start world].
  rewrite Hout. rewrite !bind_eq.
  unfold os_path_expanduser, ask at 1. cbn [start world].
  rewrite bind_eq. unfold os_listdir at 1. cbn [start world].
  rewrite Hls. cbv beta iota.
  rewrite bind_eq, (project_dirs_none _ names (start w) Hnone).
  reflexivity.
Qed.

Lemma for_each_extends {A} (xs : list A)
    (body : A -> list string -> M World (list string)) :
  (forall x issues s l s',
     body x issues s = (Returns l, s') -> exists rest, l = issues ++ rest) ->
  forall issues s l s',
    for_each xs body issues s = (Returns l, s') -> exists rest, l = issues ++ rest.
Proof.
  intros Hb. induction xs as [| x xs IH]; intros issues s l s'; cbn [for_each].
  - unfold ret. intros H. injection H as <- _. exists []. symmetry. apply app_nil_r.
  - rewrite bind_eq. destruct (body x issues s) as [[i1 | e] s1] eqn:E; [| discriminate].
    intros H. destruct (Hb _ _ _ _ _ E) as [r1 ->].
    destruct (IH _ _ _ _ H) as [r2 ->]. exists (r1 ++ r2). symmetry. apply app_assoc.
Qed.

(** a call of [git_pull_with_resolve] after some output *)
Lemma sync_after_output (d : string) (v f : bool) (w : World) (c : list string) :
  git_pull_with_resolve d v f (Proc w c []) =
  (fst (run (git_pull_with_resolve d v f) w),
   Proc (world (snd (run (git_pull_with_resolve d v f) w)))
     (c ++ console (snd (run (git_pull_with_resolve d v f) w)))
     (calls (snd (run (git_pull_with_resolve d v f) w)))).
Proof.
  assert (Hs : shifted c [] (Proc w c []) (start w)).
  { repeat split; cbn; rewrite ?app_nil_r; reflexivity. }
  assert (He : true = false -> forall (x : string) (w0 : World),
                 @encodable World unlimited x w0 = true) by discriminate.
  destruct (rel_sync true _ (shifted_stepwise c []) He d v v f (fun _ => eq_refl)
              _ _ Hs) as [E (Hw & Hc & Hk)].
  unfold run.
  destruct (git_pull_with_resolve d v f (Proc w c [])) as [r1 [w1 c1 k1]].
  cbn in *. subst. reflexivity.
Qed.

(** X18.  Whenever [update_project] returns, on a project that has a
    [comfyui] directory, the list it returns starts with the issues that
    [git_pull_with_resolve] finds for that directory; those of the custom
    nodes come after them and never replace them. *)
Theorem update_project_reports_the_main_checkout_first
    (project_dir : string) (v f : bool) (w : World)
    (l : list string) (s' : proc World) :
  path_isdir (os_path_join project_dir "comfyui") w = true ->
  run (update_project project_dir v f) w = (Returns l, s') ->
  exists found rest,
    sync_result (os_path_join project_dir "comfyui") v f w = Returns found /\
    l = found ++ rest.
Proof.
  intros Hd. unfold run, update_project, sync_result.
  rewrite bind_eq, when_print. cbv beta iota.
  rewrite bind_eq. unfold os_path_isdir at 1, ask at 1.
  cbn [world start console calls]. rewrite Hd. cbv beta iota.
  rewrite bind_eq. rewrite bind_eq, when_print. cbv beta iota.
  cbn [world console calls].
  rewrite bind_eq, sync_after_output.
  destruct (run (git_pull_with_resolve (os_path_join project_dir "comfyui") v f) w)
    as [[found | e] s1]; cbn [fst snd]; [| discriminate].
  cbn [app]. intros H. exists found.
  match type of H with
  | (match ?x with _ => _ end) = _ =>
      assert (K : forall i2 s2, x = (Returns i2, s2) -> exists rest, i2 = found ++ rest)
  end.
  { intros i2 s2. rewrite bind_eq. unfold os_path_isdir at 1, ask at 1.
    cbv beta iota. cbn [world].
    destruct (path_isdir
                (os_path_join (os_path_join project_dir "comfyui") "custom_nodes")
                (world s1)).
    - rewrite bind_eq, when_print. cbv beta iota.
      rewrite bind_eq. unfold os_listdir at 1. cbn [world].
      destruct (listdir _ _) as [names |]; [| discriminate].
      apply for_each_extends. intros node_dir issues s l0 s0.
      rewrite bind_eq. unfold os_path_isdir at 1, ask at 1. cbv beta iota.
      destruct (_ && _).
      + rewrite bind_eq, when_print. cbv beta iota. rewrite bind_eq.
        destruct (git_pull_with_resolve _ v f _) as [[fd | e] s3]; [| discriminate].
        unfold ret. intros E. injection E as <- _. exists fd. reflexivity.
      + unfold ret. intros E. injection E as <- _. exists []. symmetry.
        apply app_nil_r.
    - unfold ret. intros E. injection E as <- _. exists []. symmetry.
      apply app_nil_r. }
  match type of H with
  | (match ?x with _ => _ end) = _ => destruct x as [[i2 | e] s2]
  end; [| discriminate].
  destruct (K _ _ eq_refl) as [rest ->].
  rewrite bind_eq in H.
  destruct (when v _ s2) as [[[] | e] s3]; [| discriminate].
  unfold ret in H. injection H as <- _.
  exists rest. split; reflexivity.
Qed.

End Projects.

(** ** More of the script: a run inside a project, and forced runs *)

Section Inside.

Context {World : Type} {host : Host World} {limits : Limits World}.

(** X17.  Started in a directory whose path contains
    [/comfyui-launcher/server/projects/], [main] works on that directory
    alone: on a console that takes the progress line, the output starts with
    the full bar for its name; and every child runs one of the ten command
    lines in its [comfyui] directory or in a directory right under its
    [comfyui/custom_nodes] other than [__pycache__], on every host whose
    listings give entry names. *)
Theorem main_inside_a_project_updates_it_alone (args : arguments) (w : World) :
  let here := getcwd w in
  str_in "/comfyui-launcher/server/projects/" (replace_char "\" "/" here) = true ->
  plain_listings ->
  (forall line, encodable line w = true) ->
  (exists rest,
     console (snd (run (main args) w)) =
     [cr; ("Updating: " ++ ljust 40 (os_path_basename here))%string; "[";
      repeat_str "=" 50; ""; "] 100%"] ++ rest) /\
  Forall (fun k => In (command k) sync_commands /\ in_project here (cwd k))
         (calls (snd (run (main args) w))).
Proof.
  cbv zeta. intros Hin Hplain Hconsole. split.
  - set (six := [cr; ("Updating: " ++ ljust 40 (os_path_basename (getcwd w)))%string;
                 "["; repeat_str "=" 50; ""; "] 100%"]).
    set (Q := fun s : proc World => exists rest, console s = six ++ rest).
    set (I := fun s s' : proc World => Q s -> Q s').
    assert (I_refl : forall s, I s s) by (intros s H; exact H).
    assert (I_trans : forall s1 s2 s3, I s1 s2 -> I s2 s3 -> I s1 s3)
      by (intros s1 s2 s3 H1 H2 H; auto).
    assert (I_chdir : forall d, keeps I (os_chdir d)).
    { intros d s Hq. unfold os_chdir.
      destruct (path_isdir d (world s) && enterable d (world s)); exact Hq. }
    assert (I_write : true = true -> forall x, keeps I (write x)).
    { intros _ x s [rest Hc]. unfold write.
      destruct (encodable x (world s)); cbn [snd].
      - exists (rest ++ [x]). cbn [console]. rewrite Hc, <- app_assoc. reflexivity.
      - exists rest. exact Hc. }
    assert (I_popen : forall c d, True -> keeps I (popen_communicate c d)).
    { intros c d _ s Hq. exact Hq. }
    assert (U : keeps I (update_project (getcwd w) (verbose args) (force args))).
    { apply (keeps_update_project I true (fun _ _ => True)
               I_refl I_trans I_chdir I_write I_popen); auto. }
    unfold run, main, collect_issues.
    rewrite !bind_eq. unfold os_getcwd, ask at 1. cbn [start world].
    rewrite Hin. rewrite !bind_eq. unfold ask at 1. cbn [start world].
    rewrite bind_eq, progress_of_one_limited by exact Hconsole. cbv beta iota.
    cbn [start world console calls app].
    rewrite bind_eq. unfold ask at 1. cbn [world]. cbv beta iota.
    rewrite bind_eq. fold six.
    assert (Q0 : Q (Proc w six [])).
    { exists []. cbn [console]. symmetry. apply app_nil_r. }
    pose proof (U (Proc w six []) Q0) as Q1.
    destruct (update_project (getcwd w) (verbose args) (force args) (Proc w six []))
      as [[found | e] s1]; cbn [snd] in *; [| exact Q1].
    unfold ret at 1. cbv beta iota.
    assert (Rp : forall all_issues : list string,
              keeps I (print (nl ++ GREEN ++ "All projects updated successfully!"
                              ++ DEFAULT) ;;
                       match all_issues with
                       | [] => ret tt
                       | _ :: _ =>
                           print (nl ++ YELLOW ++ "Summary of issues:" ++ DEFAULT) ;;
                           print_items all_issues
                       end)).
    { intros all_issues.
      apply (keeps_bind I I_trans); [apply (I_write eq_refl) | intros _].
      destruct all_issues; [apply (keeps_ret I I_refl) |].
      apply (keeps_bind I I_trans); [apply (I_write eq_refl) | intros _].
      apply (keeps_print_items I true I_refl I_trans I_write). reflexivity. }
    exact (Rp ([] ++ found) s1 Q1).
  - assert (H : started
                  (fun k => In (command k) sync_commands /\
                            in_project (getcwd w) (cwd k))
                  (start w) (snd (main args (start w)))).
    { apply (main_moves
               (started (fun k => In (command k) sync_commands /\
                                  in_project (getcwd w) (cwd k)))
               true
               (fun c d' => In c sync_commands /\ in_project (getcwd w) d')).
      - apply started_refl.
      - apply started_trans.
      - apply started_chdir.
      - intros _. apply started_write.
      - intros c d' H. apply started_popen. intros x. exact H.
      - reflexivity.
      - intros project c Hp Hc. unfold main_project in Hp.
        cbn [start world] in Hp. rewrite Hin in Hp. subst project.
        split; [exact Hc | left; reflexivity].
      - intros project c n Hp Hc Hn Hl. unfold main_project in Hp.
        cbn [start world] in Hp. rewrite Hin in Hp. subst project.
        split; [exact Hc |]. apply in_project_node; assumption. }
    destruct H as [new [E F]]. unfold run. rewrite E. exact F.
Qed.

(** X20.  The rebase that a failed pull leaves behind survives a forced
    run.  Take any mark [rebasing] of the world that holds after the failed
    pull and that neither [git fetch --all] nor the hard reset to the
    upstream ref clears: it holds when [git_pull_with_resolve] returns.
    The conservative run ends such a rebase with [git rebase --abort]; the
    forced run has no such step. *)
Theorem forced_run_leaves_the_rebase_in_progress
    (d : string) (v : bool) (w0 w : World) (rebasing : World -> bool) :
  checkout d w0 ->
  enterable d w0 = true ->
  (v = true -> forall line x, encodable line x = true) ->
  text_output d ->
  In (Call "git pull --rebase" d w) (sync_log d v true w0) ->
  exit_status "git pull --rebase" d w <> 0%Z ->
  rebasing (after "git pull --rebase" d w) = true ->
  (forall x, rebasing x = true -> rebasing (after "git fetch --all" d x) = true) ->
  (forall x, rebasing x = true ->
     rebasing
       (after "git reset --hard origin/$(git rev-parse --abbrev-ref HEAD)" d x)
     = true) ->
  (exists issues, sync_result d v true w0 = Returns issues) /\
  rebasing (sync_world d v true w0) = true.
Proof.
  intros Hco Henter Hv Htext Hin Hfail Hpull Hfetch Hreset.
  along_limited_path d v true w0 Hco Henter Hv Htext.
  rewrite Elog in Hin.
  assert (Hw : w = w5).
  { destruct stashed, diverged, pull_failed; locate Hin;
      injection Hin as <-; reflexivity. }
  subst w.
  rewrite (nonzero_test _ Hfail) in Epull. subst pull_failed.
  cbn [orb andb negb] in *.
  split; [eexists; exact Eresult |].
  rewrite Eworld. apply Hreset, Hfetch, Hpull.
Qed.

End Inside.

(** ** More worked runs *)

Lemma sync_raises_when_the_directory_is_missing_witness :
  run (git_pull_with_resolve "/nowhere" true false) Sim.m_quiet
    = (Raises (OSError "/nowhere"), start Sim.m_quiet).
Proof.
  assert (Hd : path_isdir "/nowhere" (world (start Sim.m_quiet)) = false)
    by reflexivity.
  exact (sync_raises_when_the_directory_is_missing "/nowhere" true false
           (start Sim.m_quiet) Hd).
Defined.


(** no projects directory: [main] raises, and not for a division *)
Lemma main_never_divides_by_zero_witness :
  fst (main (Arguments_ false false) (start Lab.m_bare))
    = Raises (OSError Sim.projects_root) /\
  OSError Sim.projects_root <> ZeroDivisionError.
Proof.
  assert (Hr : main (Arguments_ false false) (start Lab.m_bare)
               = (Raises (OSError Sim.projects_root), start Lab.m_bare))
    by reflexivity.
  split; [rewrite Hr; reflexivity |].
  exact (@main_never_divides_by_zero Sim.machine Sim.sim_host unlimited
           (Arguments_ false false) (start Lab.m_bare)
           (start Lab.m_bare) (OSError Sim.projects_root) Hr).
Defined.

(** the demo project of [Sim.m_stuck]: every child runs in the main
    checkout or in a custom node *)
Lemma update_project_stays_in_the_project_witness :
  Forall (fun k : call Sim.machine =>
            In (command k) sync_commands /\ in_project Sim.demo (cwd k))
    (calls (snd (run (update_project Sim.demo false false) Sim.m_stuck))) /\
  calls (snd (run (update_project Sim.demo false false) Sim.m_stuck)) <> [].
Proof.
  destruct (@update_project_stays_in_the_project Sim.machine Sim.sim_host unlimited
              Sim.demo false false (start Sim.m_stuck) SimFacts.sim_plain_listings)
    as [new [E F]].
  split; [| vm_compute; discriminate].
  unfold run. rewrite E. exact F.
Defined.

(** [main] on [Sim.m_stuck], started in the home directory: the children
    run in the projects found in the projects directory *)
Lemma main_starts_only_sync_commands_witness :
  Forall (fun k : call Sim.machine =>
            In (command k) sync_commands /\
            exists project,
              main_project Sim.m_stuck project /\ in_project project (cwd k))
    (calls (snd (run (main (Arguments_ false false)) Sim.m_stuck))) /\
  calls (snd (run (main (Arguments_ false false)) Sim.m_stuck)) <> [].
Proof.
  destruct (@main_starts_only_sync_commands Sim.machine Sim.sim_host unlimited
              (Arguments_ false false) (start Sim.m_stuck)
              SimFacts.sim_plain_listings)
    as [new [E F]].
  split; [| vm_compute; discriminate].
  unfold run. rewrite E. exact F.
Defined.


(** a forced run on [Sim.m_conflict] *)
Lemma forced_run_leaves_the_rebase_in_progress_witness :
  Sim.rebase_in_progress Sim.app Sim.m_conflict = false /\
  Sim.rebase_in_progress Sim.app (sync_world Sim.app false true Sim.m_conflict) = true.
Proof.
  split; [reflexivity |].
  assert (Hco : checkout Sim.app Sim.m_conflict) by (split; reflexivity).
  assert (Henter : @enterable Sim.machine unlimited Sim.app Sim.m_conflict = true)
    by reflexivity.
  assert (Hv : false = true ->
               forall (line : string) (x : Sim.machine),
                 @encodable Sim.machine unlimited line x = true)
    by discriminate.
  assert (Hin : In (Call "git pull --rebase" Sim.app
                      (after "git diff --quiet HEAD" Sim.app
                         (after "git stash list" Sim.app
                            (chdir Sim.app Sim.m_conflict))))
                   (sync_log Sim.app false true Sim.m_conflict))
    by (vm_compute; tauto).
  assert (Hfail : exit_status "git pull --rebase" Sim.app
                    (after "git diff --quiet HEAD" Sim.app
                       (after "git stash list" Sim.app
                          (chdir Sim.app Sim.m_conflict))) <> 0%Z)
    by (vm_compute; discriminate).
  assert (Hpull : Sim.rebase_in_progress Sim.app
                    (after "git pull --rebase" Sim.app
                       (after "git diff --quiet HEAD" Sim.app
                          (after "git stash list" Sim.app
                             (chdir Sim.app Sim.m_conflict)))) = true)
    by reflexivity.
  exact (proj2 (@forced_run_leaves_the_rebase_in_progress
                  Sim.machine Sim.sim_host unlimited
                  Sim.app false Sim.m_conflict _ (Sim.rebase_in_progress Sim.app)
                  Hco Henter Hv (SimFacts.sim_text_output Sim.app) Hin Hfail Hpull
                  (SimFacts.fetch_keeps_rebase Sim.app)
                  (SimFacts.reset_keeps_rebase Sim.app))).
Defined.

(** the second of three projects *)
Lemma update_progress_draws_a_fixed_width_line_witness :
  exists name bar_done bar_todo percent : string,
    console (snd (update_progress 2 3 "demo" (start tt)))
      = [cr; name; "["; bar_done; bar_todo; percent] /\
    String.length bar_done + String.length bar_todo = 50.
Proof.
  destruct (update_progress_draws_a_fixed_width_line 2 3 "demo" (start tt)
              ltac:(lia) ltac:(lia))
    as (name & bar_done & bar_todo & percent & E & _ & Hbar & _).
  exists name, bar_done, bar_todo, percent. rewrite E. split; [reflexivity | exact Hbar].
Defined.

Lemma update_progress_ends_with_a_full_bar_witness :
  console (snd (update_progress 3 3 "demo" (start tt))) =
  [cr; "Updating: demo                                    "; "[";
   "=================================================="; ""; "] 100%"].
Proof.
  rewrite (update_progress_ends_with_a_full_bar 3 "demo" (start tt) ltac:(lia)).
  reflexivity.
Defined.

(** the home directory is no project *)
Lemma update_project_without_comfyui_witness :
  fst (run (update_project "/home/u" true false) Sim.m_quiet) = Returns [] /\
  calls (snd (run (update_project "/home/u" true false) Sim.m_quiet)) = [].
Proof.
  assert (Hd : path_isdir (os_path_join "/home/u" "comfyui") Sim.m_quiet = false)
    by reflexivity.
  rewrite (update_project_without_comfyui "/home/u" true false Sim.m_quiet Hd).
  split; reflexivity.
Defined.

Lemma main_raises_without_projects_directory_witness :
  run (main (Arguments_ true false)) Lab.m_bare
    = (Raises (OSError "/home/u/comfyui-launcher/server/projects"), start Lab.m_bare).
Proof.
  assert (Hout : str_in "/comfyui-launcher/server/projects/"
                   (replace_char "\" "/" (getcwd Lab.m_bare)) = false)
    by reflexivity.
  assert (Hls : listdir (expanduser "~/comfyui-launcher/server/projects" Lab.m_bare)
                  Lab.m_bare = None)
    by reflexivity.
  exact (main_raises_without_projects_directory (Arguments_ true false) Lab.m_bare
           Hout Hls).
Defined.

Lemma main_with_no_project_prints_the_banner_alone_witness :
  console (snd (run (main (Arguments_ true true)) Lab.m_empty)) =
  [((nl ++ GREEN ++ "All projects updated successfully!" ++ DEFAULT) ++ nl)%string].
Proof.
  assert (Hout : str_in "/comfyui-launcher/server/projects/"
                   (replace_char "\" "/" (getcwd Lab.m_empty)) = false)
    by reflexivity.
  assert (Hls : listdir (expanduser "~/comfyui-launcher/server/projects" Lab.m_empty)
                  Lab.m_empty = Some [])
    by reflexivity.
  rewrite (main_with_no_project_prints_the_banner_alone (Arguments_ true true)
             Lab.m_empty [] Hout Hls (fun d (H : In d []) => match H with end)).
  reflexivity.
Defined.

Lemma main_inside_a_project_updates_it_alone_witness :
  Forall (fun k : call Sim.machine =>
            In (command k) sync_commands /\ in_project Sim.demo (cwd k))
    (calls (snd (run (main (Arguments_ false false)) Lab.m_inside))) /\
  calls (snd (run (main (Arguments_ false false)) Lab.m_inside)) <> [].
Proof.
  assert (Hin : str_in "/comfyui-launcher/server/projects/"
                  (replace_char "\" "/" (getcwd Lab.m_inside)) = true)
    by reflexivity.
  destruct (@main_inside_a_project_updates_it_alone Sim.machine Sim.sim_host unlimited
              (Arguments_ false false) Lab.m_inside Hin SimFacts.sim_plain_listings
              (fun _ => eq_refl)) as [_ H].
  split; [exact H | vm_compute; discriminate].
Defined.

Lemma update_project_reports_the_main_checkout_first_witness :
  exists rest,
    fst (run (update_project Sim.demo false false) Sim.m_stuck) =
    Returns ([failed_to_apply Sim.app; unable_to_resolve Sim.app] ++ rest).
Proof.
  assert (Hd : path_isdir (os_path_join Sim.demo "comfyui") Sim.m_stuck = true)
    by reflexivity.
  assert (Hr : run (update_project Sim.demo false false) Sim.m_stuck =
               (Returns [failed_to_apply Sim.app; unable_to_resolve Sim.app],
                snd (run (update_project Sim.demo false false) Sim.m_stuck)))
    by (vm_compute; reflexivity).
  destruct (update_project_reports_the_main_checkout_first Sim.demo false false
              Sim.m_stuck _ _ Hd Hr) as (found & rest & Hf & Hl).
  exists []. rewrite Hr. reflexivity.
Defined.
